(** * DQN playground: the FlappyBird / LunarLander training scripts

    A shallow embedding of [flappybird_kerasrl_train.py] and
    [lunarlander_kerasrl_train.py].

    The scripts define the frame processor and the TensorBoard callback and
    configure an agent, a replay memory and an exploration policy that are
    classes of the keras-rl package.  The processor and the callback are
    embedded from the scripts.  The replay memory, the policy, the target
    network handling and the training loop are embedded from the design
    document of the system; each such definition says so.

    Numbers.  Python floats are embedded as rationals ([Q]): every finite
    float is a rational, comparisons are exact, and where the scripts round
    ([astype('float32')] followed by a division; [np.mean] and the 32-bit
    value of a summary) the rounding is explicit: to the nearest number of
    the binary32 or binary64 grid, ties to even.  NaN and the infinities are
    not rationals and are outside the embedding.  Python
    integers are [Z]; sizes, indices and array shapes are [nat]; stored
    pixels are [byte] (numpy [uint8]). *)

From Stdlib Require Import ZArith QArith Qpower Qminmax Qround Qabs Lqa Lia List
  String.
From Stdlib.Strings Require Import Byte.
From stdpp Require Import gmap strings list.

Set Default Proof Using "Type".

(** ** Exceptions and results *)

Inductive exn : Type :=
| TypeError
| ValueError
| KeyError
| ZeroDivisionError
| OverflowError
| IndexError.

Inductive result (A : Type) : Type :=
| Ok (a : A)
| Raise (e : exn).
Arguments Ok {A} a.
Arguments Raise {A} e.

Definition bind {A B : Type} (r : result A) (k : A -> result B) : result B :=
  match r with
  | Ok a => k a
  | Raise e => Raise e
  end.

Notation "'try' x := r 'in' k" := (bind r (fun x => k))
  (at level 10, x name, r at level 100, k at level 200).

Definition fails {A : Type} (r : result A) : Prop := exists e, r = Raise e.

(** ** numpy arrays: a shape and the elements in row-major order *)

Record ndarray (A : Type) : Type := mk_ndarray {
  shape : list nat;
  data : list A
}.
Arguments mk_ndarray {A} shape data.
Arguments shape {A} _.
Arguments data {A} _.

Definition size_of (sh : list nat) : nat := fold_right Nat.mul 1%nat sh.

Definition well_shaped {A : Type} (a : ndarray A) : Prop :=
  length (data a) = size_of (shape a).

(** Element-wise operations keep the shape. *)
Definition ndarray_map {A B : Type} (f : A -> B) (a : ndarray A) : ndarray B :=
  mk_ndarray (shape a) (map f (data a)).

(** Number of elements of a list that pass a test. *)
Fixpoint count_if {A : Type} (f : A -> bool) (l : list A) : nat :=
  match l with
  | [] => 0%nat
  | a :: l' => if f a then S (count_if f l') else count_if f l'
  end.

(** ** Floating point helpers *)

Module Float.
Local Open Scope Q_scope.

(** [floor (log2 q)] for a positive rational. *)
Definition ilog2 (q : Q) : Z :=
  let k := (Z.log2 (Qnum q) - Z.log2 (Zpos (Qden q)))%Z in
  if Qle_bool (2 ^ k) q then k else (k - 1)%Z.

(** Round to the nearest integer, ties to even. *)
Definition round_half_even (q : Q) : Z :=
  let f := Qfloor q in
  match (q - inject_Z f ?= 1 # 2)%Q with
  | Lt => f
  | Gt => (f + 1)%Z
  | Eq => if Z.even f then f else (f + 1)%Z
  end.

(** Rounding of a rational onto the binary32 grid (24 significant bits,
    minimal exponent -126), ties to even.  Overflow to infinity is not
    modelled: it needs a magnitude of at least 2^128. *)
Definition to_float32 (q : Q) : Q :=
  if Qeq_bool q 0 then 0
  else
    let a := Qabs q in
    let e := Z.max (ilog2 a) (-126) in
    let m := inject_Z (round_half_even (a * 2 ^ (23 - e))) * 2 ^ (e - 23) in
    Qred (if Qle_bool 0 q then m else - m).

(** The same rounding onto the binary64 grid (53 significant bits, minimal
    exponent -1022); overflow is not modelled either. *)
Definition to_float64 (q : Q) : Q :=
  if Qeq_bool q 0 then 0
  else
    let a := Qabs q in
    let e := Z.max (ilog2 a) (-1022) in
    let m := inject_Z (round_half_even (a * 2 ^ (52 - e))) * 2 ^ (e - 52) in
    Qred (if Qle_bool 0 q then m else - m).

End Float.

(** ** PIL images, as far as [process_observation] uses them *)

Module PIL.

Inductive mode : Type := L | LA | RGB | RGBA.

Definition bands (m : mode) : nat :=
  match m with L => 1%nat | LA => 2%nat | RGB => 3%nat | RGBA => 4%nat end.

(** An image has a mode, a size (width, height) and a pixel at every
    coordinate (x, y), one byte per band. *)
Record Image : Type := mk_image {
  im_mode : mode;
  im_size : nat * nat;
  getpixel : nat -> nat -> list byte
}.

(** The resampling filter of [Image.resize] and the luma transform of
    [Image.convert('L')] belong to PIL; they only decide the values of the
    pixels and are taken as parameters.  So is what [Image.fromarray] does
    with an array of one axis, which depends on the version of PIL: older
    ones raise [IndexError], newer ones read a column of pixels. *)
Record backend : Type := mk_backend {
  resample : Image -> nat * nat -> nat -> nat -> list byte;
  luma : mode -> list byte -> byte;
  fromarray_one_axis : ndarray byte -> result Image
}.

Section WithBackend.
Variable pil : backend.

(** [Image.fromarray] of a byte array: a (h, w) array is a greyscale
    image, a (h, w, 2) array a greyscale image with alpha, a (h, w, 3)
    array an RGB image and a (h, w, 4) array an RGBA image, of size (w, h).
    An array without axes has no [shape[0]]: [IndexError]; an array of one
    axis is left to the backend; every other layout has no entry in PIL's
    table of array types: [TypeError]. *)
Definition fromarray (obj : ndarray byte) : result Image :=
  let pixel_of (w c : nat) (x y : nat) : list byte :=
    take c (drop ((y * w + x) * c) (data obj)) in
  match shape obj with
  | [] => Raise IndexError
  | [_] => fromarray_one_axis pil obj
  | [h; w] => Ok (mk_image L (w, h) (pixel_of w 1%nat))
  | [h; w; 2%nat] => Ok (mk_image LA (w, h) (pixel_of w 2%nat))
  | [h; w; 3%nat] => Ok (mk_image RGB (w, h) (pixel_of w 3%nat))
  | [h; w; 4%nat] => Ok (mk_image RGBA (w, h) (pixel_of w 4%nat))
  | _ => Raise TypeError
  end.

(** [img.resize(size)]: an image of the requested size, whatever the
    size of [img] was. *)
Definition resize (img : Image) (size : nat * nat) : Image :=
  mk_image (im_mode img) size (resample pil img size).

(** [img.convert('L')] *)
Definition convert_L (img : Image) : Image :=
  mk_image L (im_size img)
    (fun x y => [luma pil (im_mode img) (getpixel img x y)]).

(** [np.array(img)]: rows first, so the shape is (height, width) and a
    trailing band axis for multi-band images. *)
Definition np_array (img : Image) : ndarray byte :=
  let '(w, h) := im_size img in
  let rows :=
    flat_map (fun y => flat_map (fun x => getpixel img x y) (seq 0%nat w))
             (seq 0%nat h) in
  match im_mode img with
  | L => mk_ndarray [h; w] rows
  | m => mk_ndarray [h; w; bands m] rows
  end.

End WithBackend.

(** A concrete backend to run examples with: nearest-neighbour resampling,
    the ITU-R 601-2 luma transform in 16-bit fixed point, and [IndexError]
    for an array of one axis. *)
Definition nearest (img : Image) (size : nat * nat) (x y : nat) : list byte :=
  let '(w, h) := im_size img in
  let '(w', h') := size in
  getpixel img (x * w / w')%nat (y * h / h')%nat.

Definition byte_of_Z (z : Z) : byte :=
  match Byte.of_N (Z.to_N (z mod 256)) with
  | Some b => b
  | None => x00
  end.

Definition Z_of_byte (b : byte) : Z := Z.of_N (Byte.to_N b).

Definition luma601 (m : mode) (px : list byte) : byte :=
  match m, px with
  | L, v :: _ => v
  | LA, v :: _ => v
  | _, r :: g :: b :: _ =>
      byte_of_Z (Z.shiftr (Z_of_byte r * 19595 + Z_of_byte g * 38470
                           + Z_of_byte b * 7471 + 32768) 16)
  | _, _ => x00
  end.

Definition reference_backend : backend :=
  mk_backend nearest luma601 (fun _ => Raise IndexError).

End PIL.

(** ** [FlappyBirdProcessor] *)

Definition INPUT_SHAPE : nat * nat := (84%nat, 84%nat).
Definition WINDOW_LENGTH : nat := 4%nat.

Module FlappyBirdProcessor.
Local Open Scope Q_scope.

(** [np.maximum], [np.minimum] and [np.clip] on scalars;
    [np.clip(a, lo, hi)] is [np.minimum(hi, np.maximum(a, lo))]. *)
Definition np_maximum (a b : Q) : Q := if Qle_bool b a then a else b.
Definition np_minimum (a b : Q) : Q := if Qle_bool a b then a else b.
Definition np_clip (a lo hi : Q) : Q := np_minimum hi (np_maximum a lo).

(** [astype('uint8')] of an array that already holds bytes. *)
Definition astype_uint8 (a : ndarray byte) : ndarray byte := a.

(** [astype('float32')] of a byte is exact. *)
Definition astype_float32 (b : byte) : Q := inject_Z (PIL.Z_of_byte b).

(** Division of two binary32 numbers, correctly rounded. *)
Definition float32_div (a b : Q) : Q := Float.to_float32 (a / b).

Section WithBackend.
Variable pil : PIL.backend.

Definition process_observation (observation : ndarray byte)
  : result (ndarray byte) :=
  try img := PIL.fromarray pil observation in
  let img := PIL.convert_L pil (PIL.resize pil img INPUT_SHAPE) in
  let processed_observation := PIL.np_array img in
  Ok (astype_uint8 processed_observation).

End WithBackend.

Definition process_state_batch (batch : ndarray byte) : ndarray Q :=
  ndarray_map (fun b => float32_div (astype_float32 b) 255) batch.

Definition process_reward (reward : Q) : Q := np_clip reward (-1) 1.

(** A check on the rescaling of one stored byte: the binary32 quotient
    lies in [0, 1] and is within half a unit in the last place of
    [b / 255]. *)
Definition rescaled_ok (b : byte) : bool :=
  let y := float32_div (astype_float32 b) 255 in
  Qle_bool 0 y && Qle_bool y 1
  && Qle_bool (Qabs (y - astype_float32 b / 255)) (1 # 2 ^ 25).

(** The stored byte read back from a rescaled value: the nearest integer
    to [255 * y]. *)
Definition byte_of_rescaled (y : Q) : byte :=
  PIL.byte_of_Z (Float.round_half_even (y * 255)).

End FlappyBirdProcessor.


(** ** [collections.deque] with a [maxlen] *)

Module Deque.

Record deque (A : Type) : Type := mk_deque {
  items : list A;
  maxlen : nat
}.
Arguments mk_deque {A} items maxlen.
Arguments items {A} _.
Arguments maxlen {A} _.

(** [deque([], maxlen=n)]: [maxlen] has to fit a C [ssize_t] (64 bits
    here), otherwise the conversion raises [OverflowError]; a negative
    [maxlen] is a [ValueError]. *)
Definition new {A : Type} (n : Z) : result (deque A) :=
  if ((n <? - 2 ^ 63) || (2 ^ 63 <=? n))%Z then Raise OverflowError
  else if (n <? 0)%Z then Raise ValueError
  else Ok (mk_deque [] (Z.to_nat n)).

(** [d.append(x)]: the item goes to the right end; when that makes the
    deque longer than [maxlen], the leftmost item is popped. *)
Definition append {A : Type} (d : deque A) (x : A) : deque A :=
  let items' := items d ++ [x] in
  mk_deque (if (maxlen d <? length items')%nat then tail items' else items')
           (maxlen d).

Definition len {A : Type} (d : deque A) : nat := length (items d).

(** The last [n] elements of a list (all of it when it is shorter). *)
Definition window {A : Type} (n : nat) (l : list A) : list A :=
  drop (length l - n) l.

End Deque.

(** ** [TensorboardCallback] *)

Module TensorboardCallback.
Import Deque.
Local Open Scope string_scope.

(** One scalar written through the summary writer: tag, value, step. *)
Record summary : Type := mk_summary {
  tag : string;
  simple_value : Q;
  summary_step : Z
}.

(** Python dictionaries keep insertion order, and [on_step_end] iterates
    over [running_data.items()]: an association list. *)
Definition dict (V : Type) : Type := list (string * V).

Fixpoint dict_get {V : Type} (d : dict V) (k : string) : result V :=
  match d with
  | [] => Raise KeyError
  | (k', v) :: d' => if String.eqb k' k then Ok v else dict_get d' k
  end.

Fixpoint dict_set {V : Type} (d : dict V) (k : string) (v : V) : dict V :=
  match d with
  | [] => [(k, v)]
  | (k', v') :: d' =>
      if String.eqb k' k then (k', v) :: d' else (k', v') :: dict_set d' k v
  end.

Record t : Type := mk {
  log_interval : Z;
  iterations : Z;
  running_data : dict (deque Q);
  tensorboard_writer : list summary
}.

(** What a method call leaves behind: it returns, or it raises and the
    object stays as it was mutated up to that point. *)
Inductive outcome : Type :=
| Returned (self : t)
| Raised (e : exn) (self : t).

Definition state_of (o : outcome) : t :=
  match o with Returned s => s | Raised _ s => s end.

Definition __init__ (log_interval reward_buffer_length
                     episode_duration_buffer_length : Z) : result t :=
  try reward := Deque.new reward_buffer_length in
  try episode_duration := Deque.new episode_duration_buffer_length in
  let running_data := dict_set [] "reward" reward in
  let running_data := dict_set running_data "episode_duration" episode_duration in
  Ok (mk log_interval 0 running_data []).

(** The two numeric library operations behind a logged value: [np.mean],
    which adds and divides in binary64 in an order of numpy's choosing, and
    the conversion to the 32-bit float that a summary's [simple_value]
    holds.  They decide the logged numbers only and are taken as
    parameters. *)
Class numerics : Type := mk_numerics {
  np_mean : list Q -> Q;
  float32 : Q -> Q
}.

(** Numerics to run examples with: a left-to-right binary64 sum divided by
    the count, and rounding to the nearest binary32 number. *)
Definition reference_numerics : numerics :=
  mk_numerics
    (fun values =>
       Float.to_float64
         (fold_left (fun s x => Float.to_float64 (s + x)) values 0
          / inject_Z (Z.of_nat (length values))))%Q
    Float.to_float32.

(** What adding up [values] in binary64 can give: the values are taken in
    some order and grouping (numpy adds in blocks and pairwise, not from
    left to right), and every addition rounds. *)
Inductive float64_sum : list Q -> Q -> Prop :=
| sum_empty : float64_sum [] 0%Q
| sum_single (x : Q) : float64_sum [x] x
| sum_add (l1 l2 : list Q) (s1 s2 : Q) :
    float64_sum l1 s1 -> float64_sum l2 s2 ->
    float64_sum (l1 ++ l2) (Float.to_float64 (s1 + s2))
| sum_reorder (l l' : list Q) (s : Q) :
    Permutation l l' -> float64_sum l s -> float64_sum l' s.

(** Numerics that round as IEEE 754 arithmetic does: [np.mean] of a
    non-empty sequence is a binary64 sum of it divided, in binary64, by
    the count, and [float32] rounds to the nearest binary32 number. *)
Definition ieee754 (num : numerics) : Prop :=
  (forall values : list Q,
     values <> [] ->
     exists s : Q,
       float64_sum values s
       /\ np_mean values
          = Float.to_float64 (s / inject_Z (Z.of_nat (length values)))%Q)
  /\ (forall q : Q, float32 q = Float.to_float32 q).

Section WithNumerics.
Context {num : numerics}.

Definition _log_scalar (self : t) (tag : string) (value : Q) (step : Z) : t :=
  mk (log_interval self) (iterations self) (running_data self)
     (tensorboard_writer self ++ [mk_summary tag (float32 value) step]).

(** The loop over [running_data.items()] inside [on_step_end]. *)
Definition log_means (self : t) : t :=
  fold_left
    (fun (s : t) (kv : string * deque Q) =>
       let '(key, values) := kv in
       if (0 <? len values)%nat
       then _log_scalar s (key ++ "-mean") (np_mean (items values)) (iterations s)
       else s)
    (running_data self) self.

Definition on_step_end (self : t) (step : Z) (logs : gmap string Q) : outcome :=
  match dict_get (running_data self) "reward", logs !! "reward" with
  | Ok buffer, Some r =>
      let self := mk (log_interval self) (iterations self)
                     (dict_set (running_data self) "reward" (append buffer r))
                     (tensorboard_writer self) in
      if (log_interval self =? 0)%Z then Raised ZeroDivisionError self
      else
        let self :=
          if (iterations self mod log_interval self =? 0)%Z
          then log_means self else self in
        Returned (mk (log_interval self) (iterations self + 1)
                     (running_data self) (tensorboard_writer self))
  | _, _ => Raised KeyError self
  end.

Definition on_episode_end (self : t) (step : Z) (logs : gmap string Q) : outcome :=
  match dict_get (running_data self) "episode_duration",
        logs !! "nb_episode_steps" with
  | Ok buffer, Some n =>
      Returned (mk (log_interval self) (iterations self)
                   (dict_set (running_data self) "episode_duration"
                             (append buffer n))
                   (tensorboard_writer self))
  | _, _ => Raised KeyError self
  end.

(** The calls the agent makes on the callback. *)
Inductive call : Type :=
| step_end (step : Z) (logs : gmap string Q)
| episode_end (step : Z) (logs : gmap string Q).

Definition invoke (self : t) (c : call) : outcome :=
  match c with
  | step_end step logs => on_step_end self step logs
  | episode_end step logs => on_episode_end self step logs
  end.

(** A sequence of calls; an exception ends it. *)
Fixpoint run (self : t) (calls : list call) : outcome :=
  match calls with
  | [] => Returned self
  | c :: calls' =>
      match invoke self c with
      | Returned self' => run self' calls'
      | Raised e self' => Raised e self'
      end
  end.

Definition is_step_end (c : call) : bool :=
  match c with step_end _ _ => true | episode_end _ _ => false end.

(** The agent passes [logs] with the keys the callback reads. *)
Definition has_keys (c : call) : Prop :=
  match c with
  | step_end _ logs => is_Some (logs !! "reward")
  | episode_end _ logs => is_Some (logs !! "nb_episode_steps")
  end.

(** Length of the buffer stored under a key (0 when the key is absent). *)
Definition buffer_len (self : t) (k : string) : nat :=
  match dict_get (running_data self) k with
  | Ok d => len d
  | Raise _ => 0%nat
  end.

Definition buffer_items (self : t) (k : string) : list Q :=
  match dict_get (running_data self) k with
  | Ok d => items d
  | Raise _ => []
  end.

(** The shape [__init__] gives to [running_data], with both buffers
    within their bounds. *)
Definition buffers (rl dl : nat) (self : t) : Prop :=
  exists dr dd : deque Q,
    running_data self = [("reward", dr); ("episode_duration", dd)]
    /\ maxlen dr = rl /\ maxlen dd = dl
    /\ (len dr <= rl)%nat /\ (len dd <= dl)%nat.

(** The summaries one logging pass writes for the two buffers. *)
Definition means_of (reward episode_duration : deque Q) (step : Z) : list summary :=
  (if (0 <? len reward)%nat
   then [mk_summary "reward-mean" (float32 (np_mean (items reward))) step]
   else [])
  ++ (if (0 <? len episode_duration)%nat
      then [mk_summary "episode_duration-mean"
                       (float32 (np_mean (items episode_duration))) step]
      else []).

(** The rewards and the episode lengths a sequence of calls hands over. *)
Definition rewards_of (calls : list call) : list Q :=
  omap (fun c => match c with
                 | step_end _ logs => logs !! "reward"
                 | episode_end _ _ => None
                 end) calls.

Definition durations_of (calls : list call) : list Q :=
  omap (fun c => match c with
                 | step_end _ _ => None
                 | episode_end _ logs => logs !! "nb_episode_steps"
                 end) calls.

(** The summaries written under a tag, and the steps they carry. *)
Definition tagged (tg : string) (self : t) : list summary :=
  List.filter (fun s => String.eqb (tag s) tg) (tensorboard_writer self).

Definition steps_tagged (tg : string) (self : t) : list Z :=
  map summary_step (tagged tg self).

(** The summary a logging call number [i] (counted from 0) is expected to
    write for the rewards [rs] of all calls: [np.mean] of the last
    [reward_buffer_length] of the first [i + 1] rewards, as a 32-bit
    float. *)
Definition reward_mean_at (reward_buffer_length : nat) (rs : list Q) (i : Z)
  : summary :=
  mk_summary "reward-mean"
             (float32 (np_mean (Deque.window reward_buffer_length
                                             (take (S (Z.to_nat i)) rs)))) i.

(** The numbers [0 <= i < n] with [i % log_interval == 0], in order. *)
Definition logging_steps (log_interval : Z) (n : nat) : list Z :=
  List.filter (fun i => (i mod log_interval =? 0)%Z) (map Z.of_nat (seq 0 n)).

End WithNumerics.

End TensorboardCallback.

(** ** Replay Memory *)

Module ReplayMemory.

(** Modelled from the spec: the Transition record of section 3; the class
    behind [SequentialMemory] comes from the keras-rl package and is not
    part of the scripts. *)
Record transition : Type := mk_transition {
  observation : ndarray byte;
  action : nat;
  reward : Q;
  terminal : bool
}.

Section Ring.
Context {A : Type}.

(** Modelled from the spec: the Replay Memory of sections 3, 4.2 and 9
    (the [SequentialMemory] of keras-rl, which the scripts only
    construct): a fixed-size circular array addressed by integer
    indices, the index of the oldest entry and the number of entries
    stored. *)
Record t : Type := mk {
  capacity : nat;
  buffer : list (option A);
  start : nat;
  count : nat
}.

(** Modelled from the spec: creation of the Replay Memory with its fixed
    capacity (keras-rl [SequentialMemory(limit=...)]). *)
Definition new (capacity : nat) : t :=
  mk capacity (replicate capacity None) 0 0.

(** Modelled from the spec: [append] of section 4.2 (keras-rl code): below
    capacity the entry goes into the next free slot; at capacity it
    overwrites the oldest entry and the oldest index moves on. *)
Definition append (m : t) (x : A) : t :=
  if (count m <? capacity m)%nat
  then mk (capacity m)
          (<[(start m + count m) mod capacity m := Some x]> (buffer m))
          (start m) (S (count m))
  else mk (capacity m)
          (<[start m := Some x]> (buffer m))
          ((start m + 1) mod capacity m) (count m).

(** Modelled from the spec: retrieval by age (keras-rl code), index 0
    being the oldest stored entry. *)
Definition get (m : t) (i : nat) : option A :=
  if (i <? count m)%nat
  then mjoin (buffer m !! ((start m + i) mod capacity m))
  else None.

(** Modelled from the spec: everything that is retrievable from the
    Replay Memory (keras-rl code), oldest first. *)
Definition entries (m : t) : list A :=
  omap (get m) (seq 0 (count m)).

(** A sequence of appends, first to last. *)
Definition append_all (m : t) (xs : list A) : t := fold_left append xs m.

(** What the circular array holds after the entries [xs] were appended to
    an empty memory of capacity [c]. *)
Definition holds (c : nat) (xs : list A) (m : t) : Prop :=
  capacity m = c
  /\ length (buffer m) = c
  /\ count m = Nat.min (length xs) c
  /\ (start m < c)%nat
  /\ ((count m < c)%nat -> start m = 0%nat)
  /\ forall i : nat,
       (i < count m)%nat ->
       buffer m !! ((start m + i) mod c)%nat
       = Some (drop (length xs - c) xs !! i).

End Ring.
Arguments t A : clear implicits.

End ReplayMemory.

(** ** Exploration Policy *)

Module ExplorationPolicy.
Local Open Scope Q_scope.

(** Modelled from the spec: the parameters of the Linear-Annealed
    Epsilon-Greedy policy of section 4.3; [LinearAnnealedPolicy] is a
    keras-rl class that the scripts only construct. *)
Record linear_annealed : Type := mk_linear_annealed {
  eps_max : Q;
  eps_min : Q;
  eps_test : Q;
  anneal_steps : Z
}.

(** Modelled from the spec: the schedule
    [eps(step) = max(eps_min, eps_max - step * (eps_max - eps_min) / anneal_steps)]
    of section 4.3 (keras-rl [LinearAnnealedPolicy], not in the scripts). *)
Definition eps (p : linear_annealed) (step : Z) : Q :=
  Qmax (eps_min p)
       (eps_max p - inject_Z step * (eps_max p - eps_min p)
                    / inject_Z (anneal_steps p)).

(** The linear part of the schedule, before the lower bound is applied. *)
Definition ramp (p : linear_annealed) (step : Z) : Q :=
  eps_max p - inject_Z step * (eps_max p - eps_min p) / inject_Z (anneal_steps p).

End ExplorationPolicy.

(** ** Target Network Manager *)

Module TargetNetworkManager.
Local Open Scope Q_scope.

(** Modelled from the spec: a parameter set of the approximator (section
    4.4), here a vector of numbers; the networks are Keras models held by
    the keras-rl [DQNAgent], which the scripts only construct. *)
Definition params : Type := list Q.

(** Modelled from the spec: the two sync modes of section 4.4 (keras-rl
    [DQNAgent], which the scripts only construct). *)
Inductive sync_mode : Type :=
| hard (sync_interval : Z)
| soft (tau : Q).

(** Modelled from the spec: the Target Network Manager state of section 3
    (keras-rl [DQNAgent]): online and target parameters and the step of
    the last sync. *)
Record t : Type := mk {
  online : params;
  target : params;
  last_sync : Z
}.

(** Modelled from the spec: the soft blend
    [target = (1-tau)*target + tau*online] (keras-rl code). *)
Definition blend (tau : Q) (target online : params) : params :=
  zip_with (fun t o => (1 - tau) * t + tau * o) target online.

(** Modelled from the spec: [maybe_sync(step)] of section 4.4 (keras-rl
    [DQNAgent], not in the scripts). *)
Definition maybe_sync (mode : sync_mode) (m : t) (step : Z) : t :=
  match mode with
  | hard sync_interval =>
      if (sync_interval <=? step - last_sync m)%Z
      then mk (online m) (online m) step
      else m
  | soft tau => mk (online m) (blend tau (target m) (online m)) (last_sync m)
  end.

(** Modelled from the spec: one optimizer step on the online approximator
    followed by [maybe_sync] (section 4.5, TRAINING); the optimizer is an
    external collaborator and [online'] is what it leaves in the online
    parameters. *)
Definition training_step (mode : sync_mode) (m : t) (step : Z)
                         (online' : params) : t :=
  maybe_sync mode (mk online' (target m) (last_sync m)) step.

(** Modelled from the spec: a run of training steps (section 4.5; the
    keras-rl [fit] loop, not in the scripts).  The step counter stands at
    [step] before the run and advances by [stride] from one training step
    to the next: by one when the training steps themselves are counted, by
    [train_interval] when the global steps are. *)
Fixpoint training_steps (mode : sync_mode) (stride : Z) (m : t) (step : Z)
                        (updates : list params) : t :=
  match updates with
  | [] => m
  | online' :: updates' =>
      training_steps mode stride
                     (training_step mode m (step + stride) online')
                     (step + stride) updates'
  end.

(** Modelled from the spec: a sampled transition of [sample_batch]
    (section 4.2; keras-rl code). *)
Record experience (window : Type) : Type := mk_experience {
  state_window : window;
  action : nat;
  reward : Q;
  next_state_window : window;
  terminal : bool
}.
Arguments mk_experience {window}.
Arguments state_window {window} _.
Arguments action {window} _.
Arguments reward {window} _.
Arguments next_state_window {window} _.
Arguments terminal {window} _.

(** Modelled from the spec: [max_a] of section 4.4 (keras-rl code), the
    maximum of a non-empty list of Q-values. *)
Definition max_a (q_values : list Q) : option Q :=
  match q_values with
  | [] => None
  | q :: q_values' => Some (fold_left Qmax q_values' q)
  end.

Section Targets.
Context {window : Type}.
(** The approximator: [predict] on a parameter set and a window. *)
Variable predict : params -> window -> list Q.
Variable gamma : Q.

(** Modelled from the spec: the target of one sampled transition in
    [compute_targets] of section 4.4 (keras-rl [DQNAgent], not in the
    scripts). *)
Definition compute_target (m : t) (e : experience window) : option Q :=
  if terminal e then Some (reward e)
  else
    (fun q => reward e + gamma * q)
      <$> max_a (predict (target m) (next_state_window e)).

(** Modelled from the spec: [compute_targets(batch)] of section 4.4
    (keras-rl code). *)
Definition compute_targets (m : t) (batch : list (experience window))
  : option (list Q) :=
  mapM (compute_target m) batch.

(** The target the spec asks for: the reward of a terminal transition;
    otherwise the reward plus [gamma] times the largest Q-value the
    target parameters predict for the next-state window. *)
Definition bootstrapped (m : t) (e : experience window) (y : Q) : Prop :=
  if terminal e then y = reward e
  else
    exists q : Q,
      max_a (predict (target m) (next_state_window e)) = Some q
      /\ (forall q', q' ∈ predict (target m) (next_state_window e) -> q' <= q)
      /\ (exists q', q' ∈ predict (target m) (next_state_window e) /\ q == q')
      /\ y = reward e + gamma * q.

End Targets.

End TargetNetworkManager.

(** ** Training Loop Controller *)

Module TrainingLoop.

(** Modelled from the spec: the observable side effects of one loop
    iteration (section 4.5; the keras-rl [fit] loop, which the scripts
    only call), in the order they happen. *)
Inductive event : Type :=
| action_selected (step : nat)
| transition_stored (step : nat)
| train_on_batch (step : nat)
| sync_checked (step : nat)
| step_ended (step : nat)
| episode_ended (episode : nat).

(** Modelled from the spec: the states of the controller (section 4.5;
    keras-rl code). *)
Inductive phase : Type := WARMUP | TRAINING | DONE.

(** Modelled from the spec: the Training Loop state and configuration of
    section 3 (the [fit] loop of keras-rl, which the scripts only call). *)
Record config : Type := mk_config {
  capacity : nat;
  warmup_steps : nat;
  train_interval : nat;
  total_steps : nat
}.

(** Modelled from the spec: the Training Loop state of section 3 (keras-rl
    code): the global step counter, the episode counter and the Replay
    Memory the controller owns; [trace] records the side effects. *)
Record t : Type := mk {
  global_step : nat;
  episode : nat;
  memory : ReplayMemory.t ReplayMemory.transition;
  trace : list event
}.

(** Modelled from the spec: the state at the start of a training run
    (section 3; keras-rl code). *)
Definition init (cfg : config) : t :=
  mk 0 0 (ReplayMemory.new (capacity cfg)) [].

(** Modelled from the spec: the state the controller is in (section 4.5;
    keras-rl code). *)
Definition phase_of (cfg : config) (s : t) : phase :=
  if (total_steps cfg <=? global_step s)%nat then DONE
  else if (global_step s <? warmup_steps cfg)%nat then WARMUP
  else TRAINING.

(** Modelled from the spec: a training step is due after warmup, once
    every [train_interval] global steps (section 4.5; keras-rl code); the
    step passed is the number of the step being completed, counted
    from 1. *)
Definition training_due (cfg : config) (step : nat) : bool :=
  (warmup_steps cfg <? step)%nat && (step mod train_interval cfg =? 0)%nat.

(** Modelled from the spec: one iteration of the loop of section 4.5 and
    the per-step data flow of section 2 (keras-rl [fit], not in the
    scripts); [tr] is the transition the environment and the processor
    produce for this step. *)
Definition loop_step (cfg : config) (s : t) (tr : ReplayMemory.transition) : t :=
  let step := S (global_step s) in
  let log := trace s ++ [action_selected step; transition_stored step] in
  let memory := ReplayMemory.append (memory s) tr in
  let log :=
    if training_due cfg step
    then log ++ [train_on_batch step; sync_checked step]
    else log in
  let log := log ++ [step_ended step] in
  if ReplayMemory.terminal tr
  then mk step (S (episode s)) memory (log ++ [episode_ended (S (episode s))])
  else mk step (episode s) memory log.

(** Modelled from the spec: the loop of section 4.5 (keras-rl [fit], not
    in the scripts) on a stream of transitions, until the stream ends or
    the configured total is reached (DONE). *)
Fixpoint fit (cfg : config) (s : t) (stream : list ReplayMemory.transition) : t :=
  match stream with
  | [] => s
  | tr :: stream' =>
      if (total_steps cfg <=? global_step s)%nat then s
      else fit cfg (loop_step cfg s tr) stream'
  end.

Definition is_train (e : event) : bool :=
  match e with train_on_batch _ => true | _ => false end.
Definition is_action (e : event) : bool :=
  match e with action_selected _ => true | _ => false end.
Definition is_store (e : event) : bool :=
  match e with transition_stored _ => true | _ => false end.
Definition is_episode_end (e : event) : bool :=
  match e with episode_ended _ => true | _ => false end.

Definition count_events (f : event -> bool) (s : t) : nat :=
  count_if f (trace s).

(** The trace of a run so far: training only after warmup, and an action
    and a stored transition at every step made. *)
Definition trace_ok (cfg : config) (s : t) : Prop :=
  (forall k : nat,
     train_on_batch k ∈ trace s ->
     (warmup_steps cfg < k <= global_step s)%nat)
  /\ (forall k : nat,
        (1 <= k <= global_step s)%nat ->
        action_selected k ∈ trace s /\ transition_stored k ∈ trace s).

(** A stub environment: reward 1 at every step, an episode end at every
    tenth step. *)
Definition stub_transition (k : nat) : ReplayMemory.transition :=
  ReplayMemory.mk_transition (mk_ndarray [] []) 0 1%Q ((k mod 10 =? 0)%nat).

End TrainingLoop.

(** ** Keras [Sequential] models, as far as their shapes go *)

Module Keras.

(** The layers the scripts use.  Shapes leave the batch axis out; images
    are channels-last, convolutions use the default "valid" padding. *)
Inductive layer : Type :=
| Permute (dims : list nat)
| Convolution2D (filters : nat) (kernel_size strides : nat * nat)
                (activation : string)
| Flatten
| Dense (units : nat) (activation : option string)
| Activation (activation : string).

(** A [Sequential] model: the [input_shape] given to its first layer and
    the layers in the order they were added. *)
Record Sequential : Type := mk_sequential {
  input_shape : list nat;
  layers : list layer
}.

(** [dims] is a permutation of 1 .. n. *)
Definition is_permutation (dims : list nat) (n : nat) : bool :=
  (length dims =? n)%nat
  && forallb (fun i => existsb (Nat.eqb i) dims) (seq 1 n).

(** The output shape of a layer on an input shape; a layer that does not
    fit its input is a [ValueError].  A "valid" convolution of an axis of
    length [n] with kernel [k] and stride [s] leaves [(n - k) / s + 1]
    positions and needs [k <= n]; it also needs at least one input
    channel. *)
Definition compute_output_shape (l : layer) (s : list nat) : result (list nat) :=
  match l with
  | Permute dims =>
      if is_permutation dims (length s)
      then Ok (map (fun d => nth (d - 1) s 0%nat) dims)
      else Raise ValueError
  | Convolution2D filters (kh, kw) (sh, sw) _ =>
      match s with
      | [h; w; c] =>
          if (kh <=? h)%nat && (kw <=? w)%nat && (1 <=? c)%nat
          then Ok [((h - kh) / sh + 1)%nat; ((w - kw) / sw + 1)%nat; filters]
          else Raise ValueError
      | _ => Raise ValueError
      end
  | Flatten => Ok [size_of s]
  | Dense units _ =>
      match s with
      | [] => Raise ValueError
      | _ => Ok (removelast s ++ [units])
      end
  | Activation _ => Ok s
  end.

(** The number of trainable parameters of a layer on an input shape:
    weights and one bias per filter or unit. *)
Definition layer_params (l : layer) (s : list nat) : Z :=
  match l with
  | Convolution2D filters (kh, kw) _ _ =>
      ((Z.of_nat kh * Z.of_nat kw * Z.of_nat (List.last s 0%nat) + 1)
       * Z.of_nat filters)%Z
  | Dense units _ => ((Z.of_nat (List.last s 0%nat) + 1) * Z.of_nat units)%Z
  | _ => 0%Z
  end.

(** The shapes a model passes through: the output shape of the last layer
    and the number of parameters of all layers. *)
Fixpoint run_layers (ls : list layer) (s : list nat) (params : Z)
  : result (list nat * Z) :=
  match ls with
  | [] => Ok (s, params)
  | l :: ls' =>
      try s' := compute_output_shape l s in
      run_layers ls' s' (params + layer_params l s)%Z
  end.

Definition output_shape (m : Sequential) : result (list nat) :=
  try r := run_layers (layers m) (input_shape m) 0 in Ok (fst r).

Definition count_params (m : Sequential) : result Z :=
  try r := run_layers (layers m) (input_shape m) 0 in Ok (snd r).

End Keras.

(** ** The configurations of the two scripts *)

(** The frame FlappyBird-v0 delivers: 512 rows of 288 RGB pixels.  The
    environment is an external collaborator of the scripts; the properties
    below use the numbers only as one particular shape. *)
Definition frame_shape : list nat := [512; 288; 3]%nat.

Module flappybird_kerasrl_train.

(** [SequentialMemory(limit=1000000, window_length=WINDOW_LENGTH)] *)
Definition limit : nat := Z.to_nat 1000000.

(** [LinearAnnealedPolicy(EpsGreedyQPolicy(), attr='eps', value_max=1.,
    value_min=.1, value_test=.05, nb_steps=1000000)] *)
Definition policy : ExplorationPolicy.linear_annealed :=
  ExplorationPolicy.mk_linear_annealed 1 (1 # 10) (5 # 100) 1000000.

(** [DQNAgent(..., nb_steps_warmup=50000, gamma=.99,
    target_model_update=10000, train_interval=4, delta_clip=1.)] *)
Definition nb_steps_warmup : nat := Z.to_nat 50000.
Definition gamma : Q := 99 # 100.
Definition target_model_update : TargetNetworkManager.sync_mode :=
  TargetNetworkManager.hard 10000.
Definition train_interval : nat := 4.

(** [dqn.fit(environment, callbacks=callbacks, nb_steps=1750000, ...)] *)
Definition nb_steps : nat := Z.to_nat 1750000.

Definition loop_config : TrainingLoop.config :=
  TrainingLoop.mk_config limit nb_steps_warmup train_interval nb_steps.

(** [build_model(input_shape, actions)] *)
Definition build_model (input_shape : list nat) (actions : nat) : Keras.Sequential :=
  Keras.mk_sequential input_shape
    [Keras.Permute [2; 3; 1]%nat;
     Keras.Convolution2D 32 (8, 8)%nat (4, 4)%nat "relu";
     Keras.Convolution2D 64 (4, 4)%nat (2, 2)%nat "relu";
     Keras.Convolution2D 64 (3, 3)%nat (1, 1)%nat "relu";
     Keras.Flatten;
     Keras.Dense 512 (Some "relu"%string);
     Keras.Dense actions (Some "linear"%string)].

(** The model [main] builds:
    [build_model((WINDOW_LENGTH,) + INPUT_SHAPE, nb_actions)]. *)
Definition main_model (nb_actions : nat) : Keras.Sequential :=
  build_model (WINDOW_LENGTH :: [fst INPUT_SHAPE; snd INPUT_SHAPE]) nb_actions.

End flappybird_kerasrl_train.

Module lunarlander_kerasrl_train.

(** [SequentialMemory(limit=100000, window_length=1)] *)
Definition limit : nat := Z.to_nat 100000.

(** [DQNAgent(..., nb_steps_warmup=10, ..., target_model_update=1e-2, ...)];
    [train_interval] is left at its default of one. *)
Definition nb_steps_warmup : nat := 10.
Definition target_model_update : TargetNetworkManager.sync_mode :=
  TargetNetworkManager.soft (1 # 100).
Definition train_interval : nat := 1.

(** [dqn.fit(environment, nb_steps=1000000, ...)] *)
Definition nb_steps : nat := Z.to_nat 1000000.

Definition loop_config : TrainingLoop.config :=
  TrainingLoop.mk_config limit nb_steps_warmup train_interval nb_steps.

(** [build_model(observation_shape, nb_actions)] *)
Definition build_model (observation_shape : list nat) (nb_actions : nat)
  : Keras.Sequential :=
  Keras.mk_sequential (1%nat :: observation_shape)
    [Keras.Flatten;
     Keras.Dense 16 None;
     Keras.Activation "relu";
     Keras.Dense 16 None;
     Keras.Activation "relu";
     Keras.Dense 16 None;
     Keras.Activation "relu";
     Keras.Dense nb_actions (Some "linear"%string)].

End lunarlander_kerasrl_train.

(** * Properties *)

(** ** Frame Processor *)

Section FrameProcessorFacts.
Import FlappyBirdProcessor.
Local Open Scope Q_scope.

Lemma Qle_bool_false (a b : Q) : Qle_bool a b = false -> b < a.
Proof.
  intros H. apply Qnot_le_lt. intros Hle.
  apply Qle_bool_iff in Hle. congruence.
Qed.

Lemma np_clip_cases (r lo hi : Q) :
  lo < hi ->
  (hi <= r /\ np_clip r lo hi = hi)
  \/ (lo <= r < hi /\ np_clip r lo hi = r)
  \/ (r < lo /\ np_clip r lo hi = lo).
Proof.
  intros Hlohi. unfold np_clip, np_minimum, np_maximum.
  destruct (Qle_bool lo r) eqn:Hlo.
  - apply Qle_bool_iff in Hlo.
    destruct (Qle_bool hi r) eqn:Hhi.
    + apply Qle_bool_iff in Hhi. left. split; [assumption | reflexivity].
    + apply Qle_bool_false in Hhi. right. left. repeat split; assumption.
  - apply Qle_bool_false in Hlo.
    destruct (Qle_bool hi lo) eqn:Hhi.
    + apply Qle_bool_iff in Hhi. lra.
    + right. right. split; [assumption | reflexivity].
Qed.

Lemma process_reward_cases (r : Q) :
  (1 <= r /\ process_reward r = 1)
  \/ (-1 <= r < 1 /\ process_reward r = r)
  \/ (r < -1 /\ process_reward r = -1).
Proof. unfold process_reward. apply np_clip_cases. lra. Qed.

(** C5: clipping a clipped reward changes nothing:
    [process_reward (process_reward r)] is [process_reward r], for every
    rational reward [r]. *)
Theorem process_reward_idempotent (r : Q) :
  process_reward (process_reward r) = process_reward r.
Proof.
  destruct (process_reward_cases r) as [[_ ->] | [[H ->] | [_ ->]]].
  - reflexivity.
  - destruct (process_reward_cases r) as [[? _] | [[_ E] | [? _]]];
      [lra | exact E | lra].
  - reflexivity.
Qed.

(** C6: [process_reward r] lies in [-1, 1] for every reward [r], it is
    [r] itself when [r] already lies in [-1, 1], and in every case it is
    the clipped value [min 1 (max (-1) r)]: 1 above the range, -1 below. *)
Theorem process_reward_clips (r : Q) :
  (-1 <= process_reward r <= 1)
  /\ (-1 <= r <= 1 -> process_reward r == r)
  /\ process_reward r == Qmin 1 (Qmax (-1) r)
  /\ (1 <= r -> process_reward r == 1)
  /\ (r <= -1 -> process_reward r == -1).
Proof.
  destruct (Q.max_spec (-1) r) as [[Hr Hmax] | [Hr Hmax]];
    destruct (Q.min_spec 1 (Qmax (-1) r)) as [[Hm Hmin] | [Hm Hmin]];
    rewrite Hmin; rewrite Hmax in *;
    destruct (process_reward_cases r) as [[H ->] | [[H ->] | [H ->]]];
    repeat split; intros; lra.
Qed.

Lemma process_reward_clips_witness :
  (-1 <= 1 # 3 <= 1) /\ process_reward (1 # 3) == 1 # 3
  /\ (1 <= 5) /\ process_reward 5 == 1.
Proof.
  assert (H : -1 <= 1 # 3 <= 1) by lra.
  assert (H5 : 1 <= 5) by lra.
  split; [exact H |].
  split; [exact (proj1 (proj2 (process_reward_clips (1 # 3))) H) |].
  split; [exact H5 |].
  exact (proj1 (proj2 (proj2 (proj2 (process_reward_clips 5)))) H5).
Defined.

Lemma rescaled_ok_all (b : byte) : rescaled_ok b = true.
Proof. destruct b; vm_compute; reflexivity. Qed.

(** C7: [process_state_batch] keeps the shape of a batch of stored bytes
    and replaces every byte [b] by the binary32 value of [b / 255], which
    lies in [0, 1]. *)
Theorem process_state_batch_unit_range (batch : ndarray byte) :
  shape (process_state_batch batch) = shape batch
  /\ length (data (process_state_batch batch)) = length (data batch)
  /\ forall (i : nat) (b : byte),
       data batch !! i = Some b ->
       exists y : Q,
         data (process_state_batch batch) !! i = Some y
         /\ y = float32_div (inject_Z (PIL.Z_of_byte b)) 255
         /\ 0 <= y <= 1
         /\ Qabs (y - inject_Z (PIL.Z_of_byte b) / 255) <= 1 # 2 ^ 25.
Proof.
  split; [reflexivity |].
  split; [apply length_map |].
  intros i b Hb.
  exists (float32_div (astype_float32 b) 255).
  split.
  { unfold process_state_batch, ndarray_map. cbn [data].
    rewrite list_lookup_fmap, Hb. reflexivity. }
  split; [reflexivity |].
  pose proof (rescaled_ok_all b) as H. unfold rescaled_ok in H.
  apply andb_prop in H as [H H3]. apply andb_prop in H as [H1 H2].
  apply Qle_bool_iff in H1, H2, H3.
  repeat split; assumption.
Qed.

Lemma process_state_batch_unit_range_witness :
  exists y : Q,
    data (process_state_batch (mk_ndarray [1; 2]%nat [x00; xff])) !! 1%nat = Some y
    /\ 0 <= y <= 1.
Proof.
  destruct (proj2 (proj2 (process_state_batch_unit_range
                            (mk_ndarray [1; 2]%nat [x00; xff]))) 1%nat xff eq_refl)
    as (y & Hy & _ & Hr & _).
  exists y. split; assumption.
Defined.

End FrameProcessorFacts.

(** ** [process_observation] and the shape of its argument *)

Section ProcessObservationFacts.
Import FlappyBirdProcessor.

Lemma length_flat_map_const {A B : Type} (f : A -> list B) (n : nat) (l : list A) :
  (forall a, length (f a) = n) -> length (flat_map f l) = (length l * n)%nat.
Proof.
  intros Hf. induction l as [| a l IH]; [reflexivity |].
  cbn [flat_map]. rewrite length_app, IH, Hf. reflexivity.
Qed.

Lemma np_array_convert_L (pil : PIL.backend) (img : PIL.Image) (w h : nat) :
  PIL.im_size img = (w, h) ->
  shape (PIL.np_array (PIL.convert_L pil img)) = [h; w]
  /\ length (data (PIL.np_array (PIL.convert_L pil img))) = (h * w)%nat.
Proof.
  intros Hsize. unfold PIL.np_array, PIL.convert_L.
  cbn [PIL.im_size PIL.im_mode PIL.getpixel]. rewrite Hsize.
  cbn [shape data]. split; [reflexivity |].
  rewrite (length_flat_map_const _ w).
  - rewrite length_seq. reflexivity.
  - intros y. rewrite (length_flat_map_const _ 1%nat).
    + rewrite length_seq. lia.
    + reflexivity.
Qed.

Lemma process_observation_of_image (pil : PIL.backend) (obs : ndarray byte)
      (img : PIL.Image) :
  PIL.fromarray pil obs = Ok img ->
  exists out : ndarray byte,
    process_observation pil obs = Ok out
    /\ shape out = [84; 84]%nat
    /\ length (data out) = (84 * 84)%nat.
Proof.
  intros Himg. unfold process_observation. rewrite Himg. cbn [bind].
  eexists. split; [reflexivity |].
  unfold astype_uint8.
  apply (np_array_convert_L pil (PIL.resize pil img INPUT_SHAPE) 84 84).
  reflexivity.
Qed.

(** C9 (as amended): [process_observation] does not compare the shape of
    its argument with any expected frame shape.  Every well-shaped byte
    array of [h] rows and [w] columns ([h], [w] at least one) that is
    greyscale (h, w), RGB (h, w, 3) or RGBA (h, w, 4) is turned into an
    array of shape (84, 84) holding 84 * 84 bytes, whatever [h] and [w]
    are and whichever resampling filter and luma transform PIL applies. *)
Theorem process_observation_fixed_shape
        (pil : PIL.backend) (obs : ndarray byte) (h w : nat) :
  well_shaped obs ->
  (0 < h)%nat -> (0 < w)%nat ->
  shape obs = [h; w] \/ shape obs = [h; w; 3%nat] \/ shape obs = [h; w; 4%nat] ->
  exists out : ndarray byte,
    process_observation pil obs = Ok out
    /\ shape out = [84; 84]%nat
    /\ length (data out) = (84 * 84)%nat.
Proof.
  intros _ _ _ Hshape.
  assert (Himg : exists img, PIL.fromarray pil obs = Ok img).
  { unfold PIL.fromarray.
    destruct Hshape as [-> | [-> | ->]]; eexists; reflexivity. }
  destruct Himg as [img Himg].
  exact (process_observation_of_image pil obs img Himg).
Qed.

Lemma process_observation_fixed_shape_witness :
  exists out : ndarray byte,
    process_observation PIL.reference_backend
      (mk_ndarray [2; 3; 3]%nat (repeat x80 18)) = Ok out
    /\ shape out = [84; 84]%nat
    /\ length (data out) = (84 * 84)%nat.
Proof.
  apply (process_observation_fixed_shape PIL.reference_backend
           (mk_ndarray [2; 3; 3]%nat (repeat x80 18)) 2 3).
  - reflexivity.
  - lia.
  - lia.
  - right. left. reflexivity.
Defined.

(** The frame shape itself is among the accepted ones. *)
Lemma process_observation_frame (pil : PIL.backend) (obs : ndarray byte) :
  shape obs = frame_shape ->
  exists out : ndarray byte,
    process_observation pil obs = Ok out /\ shape out = [84; 84]%nat.
Proof.
  intros Hshape.
  destruct (process_observation_of_image pil obs
              (PIL.mk_image PIL.RGB (288, 512)%nat
                 (fun x y => take 3 (drop ((y * 288 + x) * 3) (data obs)))))
    as (out & Hout & Hsh & _).
  - unfold PIL.fromarray. rewrite Hshape. reflexivity.
  - exists out. split; assumption.
Qed.

(** C9 (as stated) fails: a 100 x 50 RGB array does not have the frame
    shape, and [process_observation] returns an 84 x 84 array for it
    instead of raising. *)
Lemma process_observation_no_shape_check :
  let raw := mk_ndarray [100; 50; 3]%nat (repeat x10 (100 * 50 * 3)) in
  well_shaped raw
  /\ shape raw <> frame_shape
  /\ ~ fails (process_observation PIL.reference_backend raw)
  /\ exists out : ndarray byte,
       process_observation PIL.reference_backend raw = Ok out
       /\ shape out = [84; 84]%nat.
Proof.
  cbv zeta.
  assert (Hok : exists out : ndarray byte,
             process_observation PIL.reference_backend
               (mk_ndarray [100; 50; 3]%nat (repeat x10 (100 * 50 * 3))) = Ok out
             /\ shape out = [84; 84]%nat).
  { destruct (process_observation_of_image PIL.reference_backend
                (mk_ndarray [100; 50; 3]%nat (repeat x10 (100 * 50 * 3)))
                (PIL.mk_image PIL.RGB (50, 100)%nat
                   (fun x y => take 3 (drop ((y * 50 + x) * 3)
                                         (repeat x10 (100 * 50 * 3))))))
      as (out & Hout & Hsh & _); [reflexivity |].
    exists out. split; assumption. }
  split.
  { unfold well_shaped. cbn [data shape]. rewrite repeat_length.
    unfold size_of. cbn [fold_right]. lia. }
  split; [discriminate |].
  split; [| exact Hok].
  destruct Hok as (out & Hout & _). intros [e He]. congruence.
Qed.

End ProcessObservationFacts.

(** ** [TensorboardCallback]: what every call does *)

Section CallbackStepFacts.
Import Deque TensorboardCallback.
Local Open Scope string_scope.
Local Open Scope list_scope.
Context {num : numerics}.

(** One logging pass over the two buffers. *)
Lemma log_means_eq (self : t) (dr dd : deque Q) :
  running_data self = [("reward", dr); ("episode_duration", dd)] ->
  log_means self
  = mk (log_interval self) (iterations self) (running_data self)
       (tensorboard_writer self ++ means_of dr dd (iterations self)).
Proof.
  intros Hrd. unfold log_means, means_of. rewrite Hrd. cbn [fold_left].
  destruct self as [li it rd w]. cbn in Hrd. subst rd.
  destruct (0 <? len dr)%nat, (0 <? len dd)%nat;
    unfold _log_scalar; cbn; rewrite <- ?app_assoc, ?app_nil_r; reflexivity.
Qed.

(** [on_step_end], case by case. *)
Lemma on_step_end_eq (self : t) (step : Z) (logs : gmap string Q)
      (dr dd : deque Q) :
  running_data self = [("reward", dr); ("episode_duration", dd)] ->
  on_step_end self step logs
  = match logs !! "reward" with
    | None => Raised KeyError self
    | Some r =>
        let rd := [("reward", append dr r); ("episode_duration", dd)] in
        if (log_interval self =? 0)%Z
        then Raised ZeroDivisionError
               (mk (log_interval self) (iterations self) rd
                   (tensorboard_writer self))
        else Returned
               (mk (log_interval self) (iterations self + 1) rd
                   (tensorboard_writer self
                    ++ if (iterations self mod log_interval self =? 0)%Z
                       then means_of (append dr r) dd (iterations self)
                       else []))
    end.
Proof.
  intros Hrd. unfold on_step_end. rewrite Hrd.
  change (dict_get [("reward", dr); ("episode_duration", dd)] "reward")
    with (Ok dr).
  destruct (logs !! "reward") as [r |]; [| reflexivity].
  cbn [log_interval iterations running_data tensorboard_writer dict_set].
  change (String.eqb "reward" "reward") with true. cbv iota zeta.
  destruct (log_interval self =? 0)%Z; [reflexivity |].
  destruct (iterations self mod log_interval self =? 0)%Z.
  - rewrite (log_means_eq _ (append dr r) dd) by reflexivity. reflexivity.
  - cbn [log_interval iterations running_data tensorboard_writer].
    rewrite app_nil_r. reflexivity.
Qed.

(** [on_episode_end], case by case. *)
Lemma on_episode_end_eq (self : t) (step : Z) (logs : gmap string Q)
      (dr dd : deque Q) :
  running_data self = [("reward", dr); ("episode_duration", dd)] ->
  on_episode_end self step logs
  = match logs !! "nb_episode_steps" with
    | None => Raised KeyError self
    | Some n =>
        Returned
          (mk (log_interval self) (iterations self)
              [("reward", dr); ("episode_duration", append dd n)]
              (tensorboard_writer self))
    end.
Proof.
  intros Hrd. unfold on_episode_end. rewrite Hrd.
  change (dict_get [("reward", dr); ("episode_duration", dd)] "episode_duration")
    with (Ok dd).
  destruct (logs !! "nb_episode_steps") as [n |]; reflexivity.
Qed.

End CallbackStepFacts.

(** ** [TensorboardCallback]: the running buffers and the counter *)

Section TensorboardCallbackFacts.
Import Deque TensorboardCallback.
Local Open Scope string_scope.
Local Open Scope list_scope.
Context {num : numerics}.

Lemma deque_append_len {A : Type} (d : deque A) (x : A) :
  (len d <= maxlen d)%nat ->
  (len (append d x) <= maxlen d)%nat /\ maxlen (append d x) = maxlen d.
Proof.
  intros Hlen. unfold len, append in *. cbn [items maxlen].
  split; [| reflexivity].
  destruct (Nat.ltb_spec (maxlen d) (length (items d ++ [x]))) as [Hfull | Hroom].
  - destruct (items d) as [| y l]; cbn in *; [lia |].
    rewrite length_app in *. cbn in *. lia.
  - exact Hroom.
Qed.

Lemma deque_append_full {A : Type} (d : deque A) (x : A) :
  len d = maxlen d -> items (append d x) = tail (items d ++ [x]).
Proof.
  intros Hfull. unfold len, append in *. cbn [items maxlen].
  rewrite length_app. cbn [length].
  destruct (Nat.ltb_spec (maxlen d) (length (items d) + 1)); [reflexivity | lia].
Qed.

Lemma deque_append_room {A : Type} (d : deque A) (x : A) :
  (len d < maxlen d)%nat -> items (append d x) = items d ++ [x].
Proof.
  intros Hroom. unfold len, append in *. cbn [items maxlen].
  rewrite length_app. cbn [length].
  destruct (Nat.ltb_spec (maxlen d) (length (items d) + 1)); [lia | reflexivity].
Qed.

(** What [__init__] returns, when it returns. *)
Lemma init_fresh (li rl dl : Z) (self : t) :
  __init__ li rl dl = Ok self ->
  self = mk li 0 [("reward", mk_deque [] (Z.to_nat rl));
                  ("episode_duration", mk_deque [] (Z.to_nat dl))] [].
Proof.
  unfold __init__, Deque.new.
  destruct ((rl <? - 2 ^ 63) || (2 ^ 63 <=? rl))%Z; [discriminate |].
  destruct (rl <? 0)%Z; [discriminate |].
  destruct ((dl <? - 2 ^ 63) || (2 ^ 63 <=? dl))%Z; [discriminate |].
  destruct (dl <? 0)%Z; [discriminate |].
  cbn. intros [= <-]. reflexivity.
Qed.

Lemma init_buffers (li rl dl : Z) (self : t) :
  __init__ li rl dl = Ok self ->
  buffers (Z.to_nat rl) (Z.to_nat dl) self
  /\ iterations self = 0%Z /\ log_interval self = li.
Proof.
  intros Hinit. rewrite (init_fresh _ _ _ _ Hinit). cbn.
  split; [| split; reflexivity].
  eexists _, _. split; [reflexivity |]. cbn. repeat split; lia.
Qed.

Lemma log_fold_fields (l : dict (deque Q)) (self : t) :
  let self' :=
    fold_left
      (fun (s : t) (kv : string * deque Q) =>
         let '(key, values) := kv in
         if (0 <? len values)%nat
         then _log_scalar s (key ++ "-mean")%string
                          (np_mean (items values)) (iterations s)
         else s) l self in
  running_data self' = running_data self
  /\ iterations self' = iterations self
  /\ log_interval self' = log_interval self.
Proof.
  revert self.
  induction l as [| [key values] l IH]; intros self; cbn [fold_left].
  - repeat split.
  - destruct (0 <? len values)%nat.
    + destruct (IH (_log_scalar self (key ++ "-mean")%string
                      (np_mean (items values)) (iterations self)))
        as (-> & -> & ->).
      repeat split.
    + apply IH.
Qed.

Lemma log_means_fields (self : t) :
  running_data (log_means self) = running_data self
  /\ iterations (log_means self) = iterations self
  /\ log_interval (log_means self) = log_interval self.
Proof. apply log_fold_fields. Qed.

Lemma on_step_end_outcome (rl dl : nat) (self : t) (step : Z)
      (logs : gmap string Q) :
  buffers rl dl self ->
  buffers rl dl (state_of (on_step_end self step logs))
  /\ log_interval (state_of (on_step_end self step logs)) = log_interval self
  /\ (forall self', on_step_end self step logs = Returned self' ->
        iterations self' = (iterations self + 1)%Z)
  /\ (log_interval self <> 0%Z -> is_Some (logs !! "reward") ->
        exists self', on_step_end self step logs = Returned self')
  /\ (forall r, logs !! "reward" = Some r ->
        buffer_items (state_of (on_step_end self step logs)) "reward"
        = items (append (mk_deque (buffer_items self "reward") rl) r)
        /\ buffer_items (state_of (on_step_end self step logs)) "episode_duration"
           = buffer_items self "episode_duration").
Proof.
  intros (dr & dd & Hrd & Hmr & Hmd & Hlr & Hld).
  unfold on_step_end, buffer_items. rewrite Hrd.
  change (dict_get [("reward", dr); ("episode_duration", dd)] "reward")
    with (Ok dr).
  destruct (logs !! "reward") as [r |] eqn:Hr.
  - cbn [log_interval iterations running_data tensorboard_writer dict_set].
    change (String.eqb "reward" "reward") with true. cbv iota.
    destruct (deque_append_len dr r) as [Hlen' Hmax']; [lia |].
    assert (Hb : buffers rl dl
                   (mk (log_interval self) (iterations self)
                       [("reward", append dr r); ("episode_duration", dd)]
                       (tensorboard_writer self))).
    { exists (append dr r), dd.
      cbn [running_data]. repeat split; try assumption; congruence. }
    assert (Hitems : items (append dr r)
                     = items (append (mk_deque (items dr) rl) r)).
    { unfold append. cbn [items maxlen]. rewrite Hmr. reflexivity. }
    destruct (log_interval self =? 0)%Z eqn:Hli.
    + cbn [state_of log_interval running_data].
      split; [exact Hb |]. split; [reflexivity |].
      split; [intros ? [=] |].
      split; [intros Hne _; apply Z.eqb_eq in Hli; contradiction |].
      intros r' [= <-]. split; [exact Hitems | reflexivity].
    + match goal with
      | |- context [if ?c then log_means ?s else ?s] =>
          set (s1 := s) in *;
          assert (Hf : running_data (if c then log_means s1 else s1)
                       = running_data s1
                       /\ iterations (if c then log_means s1 else s1)
                          = iterations s1
                       /\ log_interval (if c then log_means s1 else s1)
                          = log_interval s1)
            by (destruct c; [apply log_means_fields | repeat split]);
          generalize dependent (if c then log_means s1 else s1)
      end.
      intros s2 (Hrd2 & Hit2 & Hli2).
      cbn [state_of log_interval running_data iterations].
      rewrite Hrd2, Hit2, Hli2. subst s1.
      cbn [running_data iterations log_interval].
      split.
      { destruct Hb as (dr' & dd' & Hrd' & Hrest). cbn in Hrd'.
        exists dr', dd'. split; [exact Hrd' | exact Hrest]. }
      split; [reflexivity |].
      split; [intros ? [= <-]; reflexivity |].
      split; [intros _ _; eexists; reflexivity |].
      intros r' [= <-]. split; [exact Hitems | reflexivity].
  - cbn [state_of]. rewrite Hrd.
    split; [exists dr, dd; repeat split; assumption |].
    split; [reflexivity |].
    split; [intros ? [=] |].
    split; [intros _ [? [=]] |].
    intros r [=].
Qed.

Lemma on_episode_end_outcome (rl dl : nat) (self : t) (step : Z)
      (logs : gmap string Q) :
  buffers rl dl self ->
  buffers rl dl (state_of (on_episode_end self step logs))
  /\ log_interval (state_of (on_episode_end self step logs)) = log_interval self
  /\ iterations (state_of (on_episode_end self step logs)) = iterations self
  /\ (is_Some (logs !! "nb_episode_steps") ->
        exists self', on_episode_end self step logs = Returned self')
  /\ (forall n, logs !! "nb_episode_steps" = Some n ->
        buffer_items (state_of (on_episode_end self step logs)) "episode_duration"
        = items (append (mk_deque (buffer_items self "episode_duration") dl) n)
        /\ buffer_items (state_of (on_episode_end self step logs)) "reward"
           = buffer_items self "reward").
Proof.
  intros (dr & dd & Hrd & Hmr & Hmd & Hlr & Hld).
  unfold on_episode_end, buffer_items. rewrite Hrd.
  change (dict_get [("reward", dr); ("episode_duration", dd)] "episode_duration")
    with (Ok dd).
  destruct (logs !! "nb_episode_steps") as [n |] eqn:Hn.
  - cbn [state_of log_interval iterations running_data dict_set].
    change (String.eqb "reward" "episode_duration") with false.
    change (String.eqb "episode_duration" "episode_duration") with true.
    cbv iota.
    destruct (deque_append_len dd n) as [Hlen' Hmax']; [lia |].
    split.
    { exists dr, (append dd n).
      cbn [running_data]. repeat split; try assumption; congruence. }
    split; [reflexivity |]. split; [reflexivity |].
    split; [intros _; eexists; reflexivity |].
    intros n' [= <-]. split; [| reflexivity].
    change (dict_get [("reward", dr); ("episode_duration", append dd n)]
              "episode_duration") with (Ok (append dd n)).
    unfold append. cbn [items maxlen]. rewrite Hmd. reflexivity.
  - cbn [state_of]. rewrite Hrd.
    split; [exists dr, dd; repeat split; assumption |].
    split; [reflexivity |]. split; [reflexivity |].
    split; [intros [? [=]] |].
    intros n [=].
Qed.

Lemma buffers_len (rl dl : nat) (self : t) :
  buffers rl dl self ->
  (buffer_len self "reward" <= rl)%nat
  /\ (buffer_len self "episode_duration" <= dl)%nat.
Proof.
  intros (dr & dd & Hrd & _ & _ & Hlr & Hld).
  unfold buffer_len. rewrite Hrd.
  change (dict_get [("reward", dr); ("episode_duration", dd)] "reward")
    with (Ok dr).
  change (dict_get [("reward", dr); ("episode_duration", dd)] "episode_duration")
    with (Ok dd).
  split; assumption.
Qed.

Lemma run_outcome (rl dl : nat) (calls : list call) (self : t) :
  buffers rl dl self ->
  buffers rl dl (state_of (run self calls))
  /\ log_interval (state_of (run self calls)) = log_interval self
  /\ (forall self', run self calls = Returned self' ->
        iterations self'
        = (iterations self + Z.of_nat (count_if is_step_end calls))%Z)
  /\ (log_interval self <> 0%Z -> Forall has_keys calls ->
        exists self', run self calls = Returned self').
Proof.
  revert self.
  induction calls as [| c calls IH]; intros self Hb.
  - cbn. split; [exact Hb |]. split; [reflexivity |].
    split; [intros ? [= <-]; lia |]. intros _ _. eexists. reflexivity.
  - cbn [run count_if].
    assert (Hc : buffers rl dl (state_of (invoke self c))
                 /\ log_interval (state_of (invoke self c)) = log_interval self
                 /\ (forall self', invoke self c = Returned self' ->
                       iterations self'
                       = (iterations self
                          + if is_step_end c then 1 else 0)%Z)
                 /\ (log_interval self <> 0%Z -> has_keys c ->
                       exists self', invoke self c = Returned self')).
    { destruct c as [step logs | step logs]; cbn [invoke is_step_end has_keys].
      - destruct (on_step_end_outcome rl dl self step logs Hb)
          as (H1 & H2 & H3 & H4 & _).
        repeat split; assumption.
      - destruct (on_episode_end_outcome rl dl self step logs Hb)
          as (H1 & H2 & H3 & H4 & _).
        split; [exact H1 |]. split; [exact H2 |].
        split; [| intros _; exact H4].
        intros self' Hret. rewrite Hret in H3. cbn in H3. lia. }
    destruct Hc as (Hb1 & Hli1 & Hit1 & Hret1).
    destruct (invoke self c) as [self1 | e self1] eqn:Hinv; cbn [state_of] in *.
    + destruct (IH self1 Hb1) as (Hb2 & Hli2 & Hit2 & Hret2).
      split; [exact Hb2 |]. split; [congruence |].
      split.
      * intros self' Hrun. rewrite (Hit2 self' Hrun), (Hit1 self1 eq_refl).
        destruct (is_step_end c); lia.
      * intros Hne Hkeys. apply Forall_cons in Hkeys as [_ Hkeys].
        apply Hret2; [congruence | exact Hkeys].
    + split; [exact Hb1 |]. split; [exact Hli1 |].
      split; [intros ? [=] |].
      intros Hne Hkeys. apply Forall_cons in Hkeys as [Hk _].
      destruct (Hret1 Hne Hk) as [? [=]].
Qed.

(** C10 (as amended): on a callback built by [__init__], after any
    sequence of [on_step_end] and [on_episode_end] calls the reward buffer
    holds at most [reward_buffer_length] values and the episode-duration
    buffer at most [episode_duration_buffer_length] (also when the last
    call raised); a full buffer that receives a value drops its oldest one;
    [iterations] grows by exactly one in every [on_step_end] call that
    returns and stays as it is in a call that raises and in
    [on_episode_end], so that it is the number of [on_step_end] calls once
    the calls have returned; and they do return when [log_interval] is not
    zero and [logs] holds the keys the callback reads. *)
Theorem tensorboard_buffers_bounded
        (log_interval reward_buffer_length episode_duration_buffer_length : Z)
        (self0 : t) (calls : list call) :
  __init__ log_interval reward_buffer_length episode_duration_buffer_length
  = Ok self0 ->
  (buffer_len (state_of (run self0 calls)) "reward"
   <= Z.to_nat reward_buffer_length)%nat
  /\ (buffer_len (state_of (run self0 calls)) "episode_duration"
      <= Z.to_nat episode_duration_buffer_length)%nat
  /\ (forall self, run self0 calls = Returned self ->
        iterations self = Z.of_nat (count_if is_step_end calls))
  /\ (forall self step logs r,
        run self0 calls = Returned self ->
        logs !! "reward" = Some r ->
        buffer_len self "reward" = Z.to_nat reward_buffer_length ->
        buffer_items (state_of (on_step_end self step logs)) "reward"
        = tail (buffer_items self "reward" ++ [r]))
  /\ (forall self step logs n,
        run self0 calls = Returned self ->
        logs !! "nb_episode_steps" = Some n ->
        buffer_len self "episode_duration"
        = Z.to_nat episode_duration_buffer_length ->
        buffer_items (state_of (on_episode_end self step logs)) "episode_duration"
        = tail (buffer_items self "episode_duration" ++ [n]))
  /\ (log_interval <> 0%Z -> Forall has_keys calls ->
        exists self, run self0 calls = Returned self)
  /\ (forall self c,
        run self0 calls = Returned self ->
        match invoke self c with
        | Returned self' =>
            iterations self'
            = (iterations self + if is_step_end c then 1 else 0)%Z
        | Raised _ self' => iterations self' = iterations self
        end).
Proof.
  intros Hinit.
  destruct (init_buffers _ _ _ _ Hinit) as (Hb0 & Hit0 & Hli0).
  destruct (run_outcome _ _ calls self0 Hb0) as (Hb & Hli & Hit & Hret).
  destruct (buffers_len _ _ _ Hb) as [Hr Hd].
  split; [exact Hr |]. split; [exact Hd |].
  split; [intros self Hrun; rewrite (Hit self Hrun), Hit0; lia |].
  split; [| split; [| split]].
  - intros self step logs r Hrun Hlogs Hfull.
    rewrite Hrun in Hb. cbn [state_of] in Hb.
    destruct (on_step_end_outcome _ _ self step logs Hb)
      as (_ & _ & _ & _ & Hitems).
    destruct (Hitems r Hlogs) as [-> _].
    apply deque_append_full. unfold len, buffer_len, buffer_items in *.
    cbn [items maxlen].
    destruct (dict_get (running_data self) "reward"); exact Hfull.
  - intros self step logs n Hrun Hlogs Hfull.
    rewrite Hrun in Hb. cbn [state_of] in Hb.
    destruct (on_episode_end_outcome _ _ self step logs Hb)
      as (_ & _ & _ & _ & Hitems).
    destruct (Hitems n Hlogs) as [-> _].
    apply deque_append_full. unfold len, buffer_len, buffer_items in *.
    cbn [items maxlen].
    destruct (dict_get (running_data self) "episode_duration"); exact Hfull.
  - intros Hne. apply Hret. congruence.
  - intros self c Hrun.
    rewrite Hrun in Hb. cbn [state_of] in Hb.
    destruct Hb as (dr & dd & Hrd & _).
    destruct c as [step logs | step logs]; cbn [invoke is_step_end].
    + rewrite (on_step_end_eq self step logs dr dd Hrd).
      destruct (logs !! "reward"); [| reflexivity].
      cbv zeta. destruct (TensorboardCallback.log_interval self =? 0)%Z;
        reflexivity.
    + rewrite (on_episode_end_eq self step logs dr dd Hrd).
      destruct (logs !! "nb_episode_steps"); cbn [iterations]; lia.
Qed.

End TensorboardCallbackFacts.

Section TensorboardCallbackExamples.
Import Deque TensorboardCallback.
Local Open Scope string_scope.
Local Open Scope list_scope.
Local Existing Instance reference_numerics.

(** C10 (as stated) fails: an [on_step_end] call that raises is a call
    that does not count.  On a callback built with [log_interval = 0] the
    call raises [ZeroDivisionError] at [iterations % log_interval], and on
    one built with the defaults a call whose [logs] has no "reward" raises
    [KeyError]; either way one [on_step_end] call was made and
    [iterations] is still 0. *)
Lemma tensorboard_raising_call_not_counted :
  (exists self0 self' : t,
     __init__ 0 2 1 = Ok self0
     /\ count_if is_step_end [step_end 0 {["reward" := 1%Q]}] = 1%nat
     /\ run self0 [step_end 0 {["reward" := 1%Q]}]
        = Raised ZeroDivisionError self'
     /\ iterations self' = 0%Z)
  /\ (exists self0 self' : t,
        __init__ 1000 10000 10000 = Ok self0
        /\ count_if is_step_end [step_end 0 ∅] = 1%nat
        /\ run self0 [step_end 0 ∅] = Raised KeyError self'
        /\ iterations self' = 0%Z).
Proof.
  split.
  - eexists _, _. split; [reflexivity |]. split; [reflexivity |].
    split; reflexivity.
  - eexists _, _. split; [reflexivity |]. split; [reflexivity |].
    split; reflexivity.
Qed.

Lemma tensorboard_buffers_bounded_witness :
  let self0 :=
    mk 2 0 [("reward", mk_deque [] 2); ("episode_duration", mk_deque [] 1)] [] in
  let calls :=
    [step_end 0 {["reward" := 1%Q]}; step_end 1 {["reward" := 3%Q]};
     episode_end 1 {["nb_episode_steps" := 2%Q]};
     step_end 2 {["reward" := 5%Q]}] in
  (buffer_len (state_of (run self0 calls)) "reward" <= 2)%nat
  /\ (buffer_len (state_of (run self0 calls)) "episode_duration" <= 1)%nat
  /\ (forall self, run self0 calls = Returned self -> iterations self = 3%Z).
Proof.
  cbv zeta.
  destruct (tensorboard_buffers_bounded 2 2 1
              (mk 2 0 [("reward", mk_deque [] 2);
                       ("episode_duration", mk_deque [] 1)] [])
              [step_end 0 {["reward" := 1%Q]}; step_end 1 {["reward" := 3%Q]};
               episode_end 1 {["nb_episode_steps" := 2%Q]};
               step_end 2 {["reward" := 5%Q]}] eq_refl)
    as (H1 & H2 & H3 & _).
  split; [exact H1 |]. split; [exact H2 | exact H3].
Defined.

End TensorboardCallbackExamples.

(** ** Replay Memory: the ring property *)

Section ReplayMemoryFacts.
Import ReplayMemory.
Context {A : Type}.

Lemma mod_wrap (a c : nat) :
  (0 < c)%nat -> (a < 2 * c)%nat ->
  (a mod c = if (a <? c)%nat then a else a - c)%nat.
Proof.
  intros Hc Ha. destruct (Nat.ltb_spec a c) as [Hlt | Hge].
  - apply Nat.mod_small. exact Hlt.
  - symmetry. apply (Nat.mod_unique a c 1); lia.
Qed.

Lemma new_holds (c : nat) : (0 < c)%nat -> holds c [] (new (A := A) c).
Proof.
  intros Hc. unfold holds, new. cbn [capacity buffer count start length].
  split; [reflexivity |]. split; [apply length_replicate |].
  split; [lia |]. split; [exact Hc |]. split; [reflexivity |].
  intros i Hi. lia.
Qed.

Lemma append_holds (c : nat) (xs : list A) (x : A) (m : t A) :
  (0 < c)%nat -> holds c xs m -> holds c (xs ++ [x]) (append m x).
Proof.
  intros Hc (Hcap & Hlen & Hcount & Hstart & Hzero & Hslots).
  unfold holds, append. rewrite Hcap, length_app. cbn [length].
  destruct (Nat.ltb_spec (count m) c) as [Hroom | Hfull];
    cbn [capacity buffer count start].
  - (* a free slot is left: nothing was evicted so far *)
    specialize (Hzero Hroom). rewrite Hzero in *. cbn [Nat.add] in *.
    assert (Hn : length xs = count m) by lia.
    rewrite (Nat.mod_small (count m) c Hroom).
    split; [reflexivity |]. split; [rewrite length_insert; exact Hlen |].
    split; [lia |]. split; [lia |]. split; [reflexivity |].
    intros i Hi. rewrite (Nat.mod_small i c) by lia.
    replace (length xs + 1 - c)%nat with 0%nat by lia. rewrite drop_0.
    destruct (decide (i = count m)) as [-> | Hne].
    + rewrite list_lookup_insert_eq by lia.
      rewrite lookup_app_r by lia.
      replace (count m - length xs)%nat with 0%nat by lia. reflexivity.
    + rewrite list_lookup_insert_ne by lia.
      specialize (Hslots i ltac:(lia)).
      rewrite (Nat.mod_small i c) in Hslots by lia.
      rewrite Hslots, lookup_drop, lookup_app_l by lia.
      f_equal. f_equal. lia.
  - (* full: the slot of the oldest entry is reused *)
    assert (Hcnt : count m = c) by lia.
    assert (Hn : (c <= length xs)%nat) by lia.
    split; [reflexivity |]. split; [rewrite length_insert; exact Hlen |].
    split; [lia |].
    split; [apply Nat.mod_upper_bound; lia |].
    split; [lia |].
    intros i Hi.
    rewrite Nat.Div0.add_mod_idemp_l.
    rewrite lookup_drop.
    destruct (decide (i = c - 1)%nat) as [-> | Hne].
    + replace (start m + 1 + (c - 1))%nat with (start m + c)%nat by lia.
      rewrite (mod_wrap (start m + c) c) by lia.
      destruct (Nat.ltb_spec (start m + c) c) as [? | _]; [lia |].
      replace (start m + c - c)%nat with (start m) by lia.
      rewrite list_lookup_insert_eq by lia.
      rewrite lookup_app_r by lia.
      replace (length xs + 1 - c + (c - 1) - length xs)%nat with 0%nat by lia.
      reflexivity.
    + assert (Hidx : ((start m + 1 + i) mod c)%nat <> start m).
      { rewrite (mod_wrap (start m + 1 + i) c) by lia.
        destruct (Nat.ltb_spec (start m + 1 + i) c); lia. }
      rewrite list_lookup_insert_ne by (intros E; apply Hidx; symmetry; exact E).
      specialize (Hslots (S i) ltac:(lia)).
      replace (start m + S i)%nat with (start m + 1 + i)%nat in Hslots by lia.
      rewrite Hslots, lookup_drop, lookup_app_l by lia.
      f_equal. f_equal. lia.
Qed.

Lemma append_all_holds (c : nat) (xs : list A) :
  (0 < c)%nat -> holds c xs (append_all (new c) xs).
Proof.
  intros Hc. induction xs as [| x xs IH] using rev_ind.
  - apply new_holds. exact Hc.
  - unfold append_all. rewrite fold_left_app. cbn [fold_left].
    apply append_holds; assumption.
Qed.

Lemma holds_get (c : nat) (xs : list A) (m : t A) (i : nat) :
  holds c xs m -> get m i = drop (length xs - c) xs !! i.
Proof.
  intros (Hcap & Hlen & Hcount & Hstart & Hzero & Hslots).
  unfold get. destruct (Nat.ltb_spec i (count m)) as [Hi | Hi].
  - rewrite Hcap, (Hslots i Hi). reflexivity.
  - symmetry. apply lookup_ge_None. rewrite length_drop. lia.
Qed.

Lemma omap_lookup_seq (l : list A) (f : nat -> option A) (k : nat) :
  (forall i, (i < length l)%nat -> f (k + i)%nat = l !! i) ->
  omap f (seq k (length l)) = l.
Proof.
  revert k. induction l as [| x l IH]; intros k Hf; [reflexivity |].
  pose proof (Hf 0%nat ltac:(cbn; lia)) as H0.
  rewrite Nat.add_0_r in H0.
  cbn. rewrite H0. cbn. f_equal. apply IH. intros i Hi.
  replace (S k + i)%nat with (k + S i)%nat by lia.
  apply (Hf (S i)). cbn. lia.
Qed.

Lemma holds_entries (c : nat) (xs : list A) (m : t A) :
  holds c xs m -> entries m = drop (length xs - c) xs.
Proof.
  intros H. unfold entries.
  assert (Hcount : count m = length (drop (length xs - c) xs)).
  { destruct H as (_ & _ & -> & _). rewrite length_drop. lia. }
  rewrite Hcount. apply omap_lookup_seq.
  intros i _. cbn [Nat.add]. apply (holds_get c xs m i H).
Qed.

(** C2: in a Replay Memory of capacity [capacity] (at least one), after
    any sequence [xs] of appends the number of stored transitions is at
    most [capacity], and what can be retrieved is exactly the last
    [capacity] appended entries in the order of their arrival; after
    [capacity + k] appends the oldest [k] entries are gone. *)
Theorem replay_memory_ring (capacity : nat) (xs : list A) :
  (0 < capacity)%nat ->
  (count (append_all (new capacity) xs) <= capacity)%nat
  /\ count (append_all (new capacity) xs) = Nat.min (length xs) capacity
  /\ entries (append_all (new capacity) xs) = drop (length xs - capacity) xs
  /\ (forall i : nat,
        get (append_all (new capacity) xs) i
        = drop (length xs - capacity) xs !! i)
  /\ (forall k : nat,
        length xs = (capacity + k)%nat ->
        entries (append_all (new capacity) xs) = drop k xs
        /\ length (entries (append_all (new capacity) xs)) = capacity).
Proof.
  intros Hc.
  pose proof (append_all_holds capacity xs Hc) as H.
  pose proof (holds_entries _ _ _ H) as He.
  assert (Hcount : count (append_all (new capacity) xs)
                   = Nat.min (length xs) capacity)
    by (destruct H as (_ & _ & Hcnt & _); exact Hcnt).
  split; [lia |]. split; [exact Hcount |]. split; [exact He |].
  split; [intros i; apply (holds_get _ _ _ i H) |].
  intros k Hk. rewrite He. replace (length xs - capacity)%nat with k by lia.
  split; [reflexivity |]. rewrite length_drop. lia.
Qed.

End ReplayMemoryFacts.

Lemma replay_memory_ring_witness :
  (0 < 3)%nat
  /\ ReplayMemory.entries
       (ReplayMemory.append_all (ReplayMemory.new 3) [1; 2; 3; 4; 5]%nat)
     = [3; 4; 5]%nat.
Proof.
  split; [exact (Nat.lt_0_succ 2) |].
  exact (proj1 (proj2 (proj2
           (replay_memory_ring 3 [1; 2; 3; 4; 5]%nat (Nat.lt_0_succ 2))))).
Defined.

(** Both scripts configure a capacity the ring property applies to. *)
Lemma configured_limits_positive :
  (0 < flappybird_kerasrl_train.limit)%nat
  /\ (0 < lunarlander_kerasrl_train.limit)%nat.
Proof.
  unfold flappybird_kerasrl_train.limit, lunarlander_kerasrl_train.limit.
  split; lia.
Qed.

(** ** Exploration Policy: the annealing schedule *)

Section ExplorationPolicyFacts.
Import ExplorationPolicy.
Local Open Scope Q_scope.

Variable p : linear_annealed.
Hypothesis bounds_ordered : eps_min p <= eps_max p.
Hypothesis anneal_positive : (0 < anneal_steps p)%Z.

Lemma ramp_antitone (step1 step2 : Z) :
  (step1 <= step2)%Z -> ramp p step2 <= ramp p step1.
Proof using bounds_ordered anneal_positive.
  intros Hle. unfold ramp.
  assert (HN : 0 < inject_Z (anneal_steps p))
    by (unfold Qlt; cbn; lia).
  assert (Hs : inject_Z step1 <= inject_Z step2) by (rewrite <- Zle_Qle; exact Hle).
  assert (Hd : 0 <= eps_max p - eps_min p) by lra.
  assert (Hnum : inject_Z step1 * (eps_max p - eps_min p)
                 <= inject_Z step2 * (eps_max p - eps_min p))
    by (apply Qmult_le_compat_r; assumption).
  assert (Hquot : inject_Z step1 * (eps_max p - eps_min p) / inject_Z (anneal_steps p)
                  <= inject_Z step2 * (eps_max p - eps_min p)
                     / inject_Z (anneal_steps p)).
  { unfold Qdiv. apply Qmult_le_compat_r; [exact Hnum |].
    apply Qlt_le_weak, Qinv_lt_0_compat. exact HN. }
  lra.
Qed.

Lemma ramp_at_end : ramp p (anneal_steps p) == eps_min p.
Proof using anneal_positive.
  unfold ramp.
  assert (HN : ~ inject_Z (anneal_steps p) == 0).
  { intros E. unfold Qeq in E. cbn in E. lia. }
  field. exact HN.
Qed.

Lemma eps_antitone (step1 step2 : Z) :
  (step1 <= step2)%Z -> eps p step2 <= eps p step1.
Proof using bounds_ordered anneal_positive.
  intros Hle. unfold eps. fold (ramp p step1). fold (ramp p step2).
  apply Q.max_le_compat; [apply Qle_refl | apply ramp_antitone; exact Hle].
Qed.

Lemma eps_after_annealing (step : Z) :
  (anneal_steps p <= step)%Z -> eps p step == eps_min p.
Proof using bounds_ordered anneal_positive.
  intros Hle. unfold eps. fold (ramp p step).
  apply Q.max_l.
  rewrite <- ramp_at_end. apply ramp_antitone. exact Hle.
Qed.

End ExplorationPolicyFacts.

(** C3: for the policy of the FlappyBird script (eps from 1 down to 0.1
    over 1000000 steps), [eps step] is
    [max (1/10) (1 - step * (1 - 1/10) / 1000000)]; it does not increase
    from [step1] to [step2] when [step1 < step2 <= 1000000], and it is
    [1/10] for every step beyond 1000000. *)
Theorem eps_schedule :
  (forall step : Z,
     ExplorationPolicy.eps flappybird_kerasrl_train.policy step
     = Qmax (1 # 10) (1 - inject_Z step * (1 - (1 # 10)) / inject_Z 1000000))
  /\ (forall step1 step2 : Z,
        (step1 < step2 <= 1000000)%Z ->
        (ExplorationPolicy.eps flappybird_kerasrl_train.policy step2
         <= ExplorationPolicy.eps flappybird_kerasrl_train.policy step1)%Q)
  /\ (forall step : Z,
        (1000000 < step)%Z ->
        (ExplorationPolicy.eps flappybird_kerasrl_train.policy step == 1 # 10)%Q).
Proof.
  split; [intros step; reflexivity |].
  split.
  - intros step1 step2 [Hlt _].
    apply eps_antitone; [discriminate | reflexivity | lia].
  - intros step Hgt.
    apply (eps_after_annealing flappybird_kerasrl_train.policy);
      [discriminate | reflexivity | cbn; lia].
Qed.

Lemma eps_schedule_witness :
  (ExplorationPolicy.eps flappybird_kerasrl_train.policy 500000
   <= ExplorationPolicy.eps flappybird_kerasrl_train.policy 250000)%Q
  /\ (ExplorationPolicy.eps flappybird_kerasrl_train.policy 1000001 == 1 # 10)%Q.
Proof.
  split.
  - apply (proj1 (proj2 eps_schedule) 250000%Z 500000%Z). split; reflexivity || discriminate.
  - apply (proj2 (proj2 eps_schedule) 1000001%Z). reflexivity.
Defined.

(** ** Target Network Manager: bootstrapped targets *)

Section TargetFacts.
Import TargetNetworkManager.
Local Open Scope Q_scope.

Lemma fold_max_bounds (l : list Q) (a : Q) :
  a <= fold_left Qmax l a
  /\ (forall q, q ∈ l -> q <= fold_left Qmax l a)
  /\ (fold_left Qmax l a == a \/ exists q, q ∈ l /\ fold_left Qmax l a == q).
Proof.
  revert a. induction l as [| x l IH]; intros a; cbn [fold_left].
  - split; [apply Qle_refl |]. split; [| left; reflexivity].
    intros q Hq. inversion Hq.
  - destruct (IH (Qmax a x)) as (Hge & Hall & Hatt).
    split; [eapply Qle_trans; [apply Q.le_max_l | exact Hge] |].
    split.
    + intros q Hq. apply elem_of_cons in Hq as [-> | Hq].
      * eapply Qle_trans; [apply Q.le_max_r | exact Hge].
      * apply Hall. exact Hq.
    + destruct Hatt as [Heq | (q & Hq & Heq)].
      * destruct (Q.max_dec a x) as [E | E].
        -- left. rewrite Heq. exact E.
        -- right. exists x. split; [apply list_elem_of_here |].
           rewrite Heq. exact E.
      * right. exists q. split; [apply list_elem_of_further; exact Hq | exact Heq].
Qed.

(** [max_a] is the maximum: an upper bound that one of the values
    attains. *)
Lemma max_a_spec (q_values : list Q) :
  q_values <> [] ->
  exists q : Q,
    max_a q_values = Some q
    /\ (forall q', q' ∈ q_values -> q' <= q)
    /\ (exists q', q' ∈ q_values /\ q == q').
Proof.
  destruct q_values as [| a l]; [congruence | intros _].
  exists (fold_left Qmax l a). cbn [max_a].
  destruct (fold_max_bounds l a) as (Hge & Hall & Hatt).
  split; [reflexivity |]. split.
  - intros q' Hq'. apply elem_of_cons in Hq' as [-> | Hq'];
      [exact Hge | apply Hall; exact Hq'].
  - destruct Hatt as [Heq | (q & Hq & Heq)].
    + exists a. split; [apply list_elem_of_here | exact Heq].
    + exists q. split; [apply list_elem_of_further; exact Hq | exact Heq].
Qed.

Context {window : Type}.
Variable predict : params -> window -> list Q.
Variable gamma : Q.

Lemma compute_target_bootstrapped (m : t) (e : experience window) :
  (terminal e = false -> predict (target m) (next_state_window e) <> []) ->
  exists y : Q,
    compute_target predict gamma m e = Some y
    /\ bootstrapped predict gamma m e y.
Proof using Type.
  intros Hne. unfold compute_target, bootstrapped.
  destruct (terminal e).
  - exists (reward e). split; reflexivity.
  - destruct (max_a_spec (predict (target m) (next_state_window e)) (Hne eq_refl))
      as (q & Hq & Hub & Hatt).
    exists (reward e + gamma * q). rewrite Hq. split; [reflexivity |].
    exists q. repeat split; assumption.
Qed.

(** C1: [compute_targets] gives every sampled transition a target; the
    target of a terminal transition is its reward, whatever the next-state
    window predicts, and the target of a non-terminal transition is its
    reward plus [gamma] times the maximum over the actions of the target
    network's prediction on the next-state window.  ([gamma] is 0.99 in
    the FlappyBird script; the statement holds for every [gamma].) *)
Theorem compute_targets_bootstrap (m : t) (batch : list (experience window)) :
  (forall e, e ∈ batch -> terminal e = false ->
             predict (target m) (next_state_window e) <> []) ->
  exists targets : list Q,
    compute_targets predict gamma m batch = Some targets
    /\ length targets = length batch
    /\ forall (i : nat) (e : experience window),
         batch !! i = Some e ->
         exists y : Q,
           targets !! i = Some y
           /\ (terminal e = true -> y = reward e)
           /\ (terminal e = false ->
               exists q : Q,
                 max_a (predict (target m) (next_state_window e)) = Some q
                 /\ (forall q', q' ∈ predict (target m) (next_state_window e)
                                -> q' <= q)
                 /\ (exists q', q' ∈ predict (target m) (next_state_window e)
                                /\ q == q')
                 /\ y = reward e + gamma * q).
Proof using Type.
  intros Hne.
  assert (Hall : exists targets,
             Forall2 (fun e y => compute_target predict gamma m e = Some y
                                 /\ bootstrapped predict gamma m e y)
                     batch targets).
  { induction batch as [| e batch' IH].
    - exists []. constructor.
    - destruct IH as [targets' IH].
      { intros e' He'. apply Hne. apply list_elem_of_further. exact He'. }
      destruct (compute_target_bootstrapped m e) as (y & Hy).
      { apply Hne. apply list_elem_of_here. }
      exists (y :: targets'). constructor; assumption. }
  destruct Hall as [targets Hall]. exists targets.
  split.
  { apply mapM_Some. eapply Forall2_impl; [exact Hall |].
    intros e y [Hy _]. exact Hy. }
  split; [symmetry; eapply Forall2_length; exact Hall |].
  intros i e Hi.
  destruct (Forall2_lookup_l _ _ _ _ _ Hall Hi) as (y & Hy & _ & Hb).
  exists y. split; [exact Hy |].
  unfold bootstrapped in Hb. destruct (terminal e).
  - split; [intros _; exact Hb | discriminate].
  - split; [discriminate | intros _; exact Hb].
Qed.

End TargetFacts.

(** The synthetic transition of the spec: terminal, reward 5, gamma 0.9;
    the target is 5 although the next state is predicted Q-values up
    to 300. *)
Lemma compute_targets_bootstrap_witness :
  let predict :=
    fun (_ : TargetNetworkManager.params) (_ : unit) => [100; 300; 200]%Q in
  let m := TargetNetworkManager.mk [1%Q] [2%Q] 0 in
  let e := TargetNetworkManager.mk_experience tt 0%nat 5%Q tt true in
  exists targets : list Q,
    TargetNetworkManager.compute_targets predict (9 # 10) m [e] = Some targets
    /\ targets !! 0%nat = Some 5%Q.
Proof.
  intros predict m e.
  destruct (compute_targets_bootstrap predict (9 # 10) m [e])
    as (targets & Hts & _ & Hlk).
  - intros e' He' Hterm. discriminate.
  - exists targets. split; [exact Hts |].
    destruct (Hlk 0%nat e eq_refl) as (y & Hy & Hterm & _).
    rewrite Hy. f_equal. exact (Hterm eq_refl).
Defined.

(** ** Target Network Manager: hard sync *)

Section HardSyncFacts.
Import TargetNetworkManager.

(** The sync interval is [period] training steps of [stride] counter
    steps each. *)
Variables (stride : Z) (period : nat).
Hypothesis stride_positive : (0 < stride)%Z.
Hypothesis period_positive : (0 < period)%nat.

Local Notation "'sync_interval'" := (Z.of_nat period * stride)%Z.
Local Notation "'run'" := (training_steps (hard sync_interval) stride).

Lemma training_steps_app (mode : sync_mode) (u1 u2 : list params)
      (m : t) (step : Z) :
  training_steps mode stride m step (u1 ++ u2)
  = training_steps mode stride (training_steps mode stride m step u1)
                   (step + Z.of_nat (length u1) * stride) u2.
Proof.
  revert m step. induction u1 as [| w u1 IH]; intros m step.
  - cbn. rewrite Z.add_0_r. reflexivity.
  - cbn [app training_steps length]. rewrite IH. f_equal.
    rewrite Nat2Z.inj_succ. ring.
Qed.

Lemma default_last_cons (w w0 : params) (l : list params) :
  default w0 (last (w :: l)) = default w (last l).
Proof.
  destruct l as [| p l]; [reflexivity |].
  rewrite last_cons_cons.
  destruct (last (p :: l)) eqn:E; [reflexivity |].
  apply last_None in E. discriminate.
Qed.

(** Training replaces the online parameters at every step, sync or not. *)
Lemma training_steps_online (mode : sync_mode) (updates : list params)
      (m : t) (step : Z) :
  online (training_steps mode stride m step updates)
  = default (online m) (last updates).
Proof.
  revert m step. induction updates as [| w updates IH]; intros m step.
  - reflexivity.
  - cbn [training_steps]. rewrite IH, default_last_cons.
    unfold training_step, maybe_sync.
    destruct mode as [n | tau]; [| reflexivity].
    cbn [last_sync]. destruct (n <=? step + stride - last_sync m)%Z; reflexivity.
Qed.

(** While fewer than [sync_interval] counter steps have passed since the
    last sync, training leaves the target parameters alone. *)
Lemma training_steps_between_syncs (updates : list params) (m : t) (step : Z) :
  (step + Z.of_nat (length updates) * stride - last_sync m < sync_interval)%Z ->
  target (run m step updates) = target m
  /\ last_sync (run m step updates) = last_sync m.
Proof using stride_positive period_positive.
  revert m step. induction updates as [| w updates IH]; intros m step Hlt.
  - split; reflexivity.
  - cbn [training_steps length] in *.
    assert (Hstep : training_step (hard sync_interval) m (step + stride) w
                    = mk w (target m) (last_sync m)).
    { unfold training_step, maybe_sync. cbn [last_sync online target].
      destruct (Z.leb_spec sync_interval (step + stride - last_sync m)); [nia |].
      reflexivity. }
    rewrite Hstep.
    destruct (IH (mk w (target m) (last_sync m)) (step + stride)%Z)
      as (Ht & Hl); [cbn [last_sync]; nia |].
    rewrite Ht, Hl. split; reflexivity.
Qed.

(** [period] training steps after a sync, the next sync happens. *)
Lemma training_steps_one_period (updates : list params) (m : t) :
  length updates = period ->
  target (run m (last_sync m) updates) = online (run m (last_sync m) updates)
  /\ last_sync (run m (last_sync m) updates) = (last_sync m + sync_interval)%Z.
Proof using stride_positive period_positive.
  intros Hlen.
  destruct updates as [| w rest _] using rev_ind; [cbn in Hlen; lia |].
  rewrite length_app in Hlen. cbn [length] in Hlen.
  rewrite training_steps_app. cbn [training_steps].
  destruct (training_steps_between_syncs rest m (last_sync m)) as (Ht & Hl);
    [nia |].
  unfold training_step, maybe_sync. cbn [last_sync online target].
  rewrite Hl.
  destruct (Z.leb_spec sync_interval
              (last_sync m + Z.of_nat (length rest) * stride + stride
               - last_sync m)); [| nia].
  cbn [target online last_sync]. split; [reflexivity | nia].
Qed.

(** After any whole number of periods the target has just been synced. *)
Lemma training_steps_periods (j : nat) (updates : list params) (m : t) :
  length updates = (j * period)%nat ->
  last_sync (run m (last_sync m) updates)
  = (last_sync m + Z.of_nat j * sync_interval)%Z
  /\ ((0 < j)%nat ->
      target (run m (last_sync m) updates) = online (run m (last_sync m) updates)).
Proof using stride_positive period_positive.
  revert updates. induction j as [| j IH]; intros updates Hlen.
  - destruct updates; [| cbn in Hlen; lia]. cbn. split; [lia | intros ?; lia].
  - rewrite <- (take_drop (j * period) updates).
    rewrite training_steps_app.
    destruct (IH (take (j * period) updates)) as (Hl & _);
      [rewrite length_take; lia |].
    rewrite length_take, Nat.min_l by lia.
    set (m' := run m (last_sync m) (take (j * period) updates)) in *.
    replace (last_sync m + Z.of_nat (j * period) * stride)%Z
      with (last_sync m') by (rewrite Hl; nia).
    destruct (training_steps_one_period (drop (j * period) updates) m')
      as (Ht' & Hl'); [rewrite length_drop; lia |].
    split; [rewrite Hl', Hl; nia | intros _; exact Ht'].
Qed.

(** C4: in hard mode, with a sync interval of [period] training steps
    (counted in training steps, [stride] = 1, or in global steps with a
    training step every [stride] of them; 10000 = 2500 * 4 in the FlappyBird
    script), starting right after a sync: every [period]-th training step
    copies the online parameters into the target, so that after exactly
    [sync_interval] training steps target and online parameters are equal;
    between two syncs the target parameters stay what the last sync made
    them, while the online parameters take the value of every update. *)
Theorem hard_sync (m : t) (updates : list params) :
  (forall j i : nat,
     (i < period)%nat -> (j * period + i <= length updates)%nat ->
     target (run m (last_sync m) (take (j * period + i) updates))
     = target (run m (last_sync m) (take (j * period) updates)))
  /\ (forall k : nat,
        online (run m (last_sync m) (take k updates))
        = default (online m) (last (take k updates)))
  /\ (forall j : nat,
        (0 < j)%nat -> (j * period <= length updates)%nat ->
        target (run m (last_sync m) (take (j * period) updates))
        = online (run m (last_sync m) (take (j * period) updates))
        /\ last_sync (run m (last_sync m) (take (j * period) updates))
           = (last_sync m + Z.of_nat j * sync_interval)%Z)
  /\ ((Z.to_nat sync_interval <= length updates)%nat ->
      target (run m (last_sync m) (take (Z.to_nat sync_interval) updates))
      = online (run m (last_sync m) (take (Z.to_nat sync_interval) updates))).
Proof using stride_positive period_positive.
  assert (Hsync : forall j : nat,
             (0 < j)%nat -> (j * period <= length updates)%nat ->
             target (run m (last_sync m) (take (j * period) updates))
             = online (run m (last_sync m) (take (j * period) updates))
             /\ last_sync (run m (last_sync m) (take (j * period) updates))
                = (last_sync m + Z.of_nat j * sync_interval)%Z).
  { intros j Hj Hlen.
    destruct (training_steps_periods j (take (j * period) updates) m)
      as (Hl & Ht); [rewrite length_take; lia |].
    split; [exact (Ht Hj) | exact Hl]. }
  split; [| split; [| split]].
  - intros j i Hi Hlen.
    replace (take (j * period + i) updates)
      with (take (j * period) updates ++ take i (drop (j * period) updates)).
    2:{ rewrite <- (take_drop (j * period) updates) at 3.
        rewrite take_app_add'; [reflexivity | rewrite length_take; lia]. }
    rewrite training_steps_app.
    destruct (training_steps_periods j (take (j * period) updates) m)
      as (Hl & _); [rewrite length_take; lia |].
    set (m' := run m (last_sync m) (take (j * period) updates)) in *.
    apply training_steps_between_syncs.
    rewrite Hl, !length_take, length_drop. nia.
  - intros k. apply training_steps_online.
  - exact Hsync.
  - intros Hlen.
    replace (Z.to_nat sync_interval) with (Z.to_nat stride * period)%nat in * by nia.
    apply Hsync; [lia | exact Hlen].
Qed.

End HardSyncFacts.

(** A sync interval of 4 counter steps with a training step every 2: the
    second and the fourth training step sync, the third does not. *)
Lemma hard_sync_witness :
  let m := TargetNetworkManager.mk [0%Q] [0%Q] 6 in
  let updates := [[1%Q]; [2%Q]; [3%Q]; [4%Q]] in
  TargetNetworkManager.target
    (TargetNetworkManager.training_steps (TargetNetworkManager.hard 4) 2 m 6
       (take 3 updates))
  = TargetNetworkManager.target
      (TargetNetworkManager.training_steps (TargetNetworkManager.hard 4) 2 m 6
         (take 2 updates))
  /\ TargetNetworkManager.target
       (TargetNetworkManager.training_steps (TargetNetworkManager.hard 4) 2 m 6
          (take 4 updates))
     = TargetNetworkManager.online
         (TargetNetworkManager.training_steps (TargetNetworkManager.hard 4) 2 m 6
            (take 4 updates)).
Proof.
  intros m updates.
  destruct (hard_sync 2 2 eq_refl (Nat.lt_0_succ 1) m updates)
    as (Hbetween & _ & _ & Hsync).
  split.
  - exact (Hbetween 1%nat 1%nat (Nat.lt_succ_diag_r 1) (Nat.le_succ_diag_r 3)).
  - exact (Hsync (Nat.le_refl 4)).
Defined.

(** The FlappyBird script syncs every 10000 global steps and trains every
    4 of them: a sync every 2500 training steps. *)
Lemma flappybird_sync_period :
  flappybird_kerasrl_train.target_model_update
  = TargetNetworkManager.hard
      (Z.of_nat 2500 * Z.of_nat flappybird_kerasrl_train.train_interval).
Proof. reflexivity. Qed.

(** ** Training Loop Controller: warmup *)

Section WarmupFacts.
Import TrainingLoop.

Variable cfg : config.

Lemma count_if_app {B : Type} (f : B -> bool) (l1 l2 : list B) :
  count_if f (l1 ++ l2) = (count_if f l1 + count_if f l2)%nat.
Proof.
  induction l1 as [| a l1 IH]; [reflexivity |].
  cbn [app count_if]. destruct (f a); rewrite IH; reflexivity.
Qed.

(** One iteration before the warmup threshold: an action is selected, the
    transition is stored, no training step is made. *)
Lemma loop_step_warmup (s : t) (tr : ReplayMemory.transition) :
  (global_step s < warmup_steps cfg)%nat ->
  global_step (loop_step cfg s tr) = S (global_step s)
  /\ memory (loop_step cfg s tr) = ReplayMemory.append (memory s) tr
  /\ count_events is_train (loop_step cfg s tr) = count_events is_train s
  /\ count_events is_action (loop_step cfg s tr) = S (count_events is_action s)
  /\ count_events is_store (loop_step cfg s tr) = S (count_events is_store s).
Proof.
  intros Hwarm. unfold loop_step, training_due, count_events.
  destruct (Nat.ltb_spec (warmup_steps cfg) (S (global_step s))); [lia |].
  cbn [andb].
  destruct (ReplayMemory.terminal tr); cbn [global_step memory trace];
    rewrite !count_if_app; cbn; repeat split; lia.
Qed.

Lemma fit_warmup (stream : list ReplayMemory.transition) (s : t) :
  (global_step s + length stream <= warmup_steps cfg)%nat ->
  let n := Nat.min (length stream) (total_steps cfg - global_step s) in
  global_step (fit cfg s stream) = (global_step s + n)%nat
  /\ memory (fit cfg s stream)
     = ReplayMemory.append_all (memory s) (take n stream)
  /\ count_events is_train (fit cfg s stream) = count_events is_train s
  /\ count_events is_action (fit cfg s stream)
     = (count_events is_action s + n)%nat
  /\ count_events is_store (fit cfg s stream)
     = (count_events is_store s + n)%nat.
Proof.
  revert s. induction stream as [| tr stream IH]; intros s Hlen; cbv zeta.
  - cbn. rewrite !Nat.add_0_r. repeat split.
  - cbn [fit length] in *.
    destruct (Nat.leb_spec (total_steps cfg) (global_step s)) as [Hdone | Hrun].
    + replace (total_steps cfg - global_step s)%nat with 0%nat by lia.
      rewrite Nat.min_0_r, !Nat.add_0_r. repeat split.
    + destruct (loop_step_warmup s tr) as (Hg & Hm & Ht & Ha & Hs); [lia |].
      specialize (IH (loop_step cfg s tr)). cbv zeta in IH.
      destruct IH as (Hg' & Hm' & Ht' & Ha' & Hs'); [lia |].
      rewrite Hg', Hm', Ht', Ha', Hs', Hg, Hm, Ht, Ha, Hs.
      replace (Nat.min (S (length stream)) (total_steps cfg - global_step s))
        with (S (Nat.min (length stream)
                         (total_steps cfg - S (global_step s)))) by lia.
      cbn [take ReplayMemory.append_all fold_left].
      repeat split; lia.
Qed.

(** What one iteration adds to the trace. *)
Lemma loop_step_trace (s : t) (tr : ReplayMemory.transition) :
  exists extra : list event,
    trace (loop_step cfg s tr) = trace s ++ extra
    /\ global_step (loop_step cfg s tr) = S (global_step s)
    /\ action_selected (S (global_step s)) ∈ extra
    /\ transition_stored (S (global_step s)) ∈ extra
    /\ forall k, train_on_batch k ∈ extra ->
                 k = S (global_step s) /\ training_due cfg k = true.
Proof.
  unfold loop_step.
  destruct (training_due cfg (S (global_step s))) eqn:Hdue;
    destruct (ReplayMemory.terminal tr); cbn [trace global_step];
    rewrite <- ?app_assoc; cbn [app];
    (eexists; split; [reflexivity |]; split; [reflexivity |];
     split; [set_solver |]; split; [set_solver |];
     intros k Hk; repeat (apply elem_of_cons in Hk as [Hk | Hk]; try discriminate);
     [injection Hk as ->; split; [reflexivity | exact Hdue] ..
     | apply elem_of_nil in Hk; contradiction]).
Qed.

Lemma loop_step_invariant (s : t) (tr : ReplayMemory.transition) :
  trace_ok cfg s -> trace_ok cfg (loop_step cfg s tr).
Proof.
  intros [Htrain Hact].
  destruct (loop_step_trace s tr) as (extra & Htr & Hgs & Ha & Hs & Hextra).
  unfold trace_ok. rewrite Htr, Hgs.
  split.
  - intros k Hk. apply elem_of_app in Hk as [Hk | Hk].
    + specialize (Htrain k Hk). lia.
    + destruct (Hextra k Hk) as [-> Hdue]. unfold training_due in Hdue.
      apply andb_prop in Hdue as [Hdue _]. apply Nat.ltb_lt in Hdue. lia.
  - intros k Hk. destruct (decide (k = S (global_step s))) as [-> | Hne].
    + split; apply elem_of_app; right; assumption.
    + destruct (Hact k ltac:(lia)) as [H1 H2].
      split; apply elem_of_app; left; assumption.
Qed.

Lemma fit_invariant (stream : list ReplayMemory.transition) (s : t) :
  trace_ok cfg s -> trace_ok cfg (fit cfg s stream).
Proof.
  revert s. induction stream as [| tr stream IH]; intros s Hok; cbn [fit].
  - exact Hok.
  - destruct (total_steps cfg <=? global_step s)%nat; [exact Hok |].
    apply IH, loop_step_invariant, Hok.
Qed.

(** C8: in a training run of any length, every global step that is made
    selects an action and stores a transition, and no [train_on_batch]
    happens at a global step up to [warmup_steps] (50000 in the FlappyBird
    script, 10 in the LunarLander script).  A run of at most
    [warmup_steps] steps therefore trains not once, and the Replay Memory
    has received one append per step. *)
Theorem warmup_no_training (stream : list ReplayMemory.transition) :
  (forall k : nat,
     train_on_batch k ∈ trace (fit cfg (init cfg) stream) ->
     (warmup_steps cfg < k)%nat)
  /\ (forall k : nat,
        (1 <= k <= global_step (fit cfg (init cfg) stream))%nat ->
        action_selected k ∈ trace (fit cfg (init cfg) stream)
        /\ transition_stored k ∈ trace (fit cfg (init cfg) stream))
  /\ ((length stream <= warmup_steps cfg)%nat ->
      (length stream <= total_steps cfg)%nat ->
      global_step (fit cfg (init cfg) stream) = length stream
      /\ count_events is_train (fit cfg (init cfg) stream) = 0%nat
      /\ count_events is_action (fit cfg (init cfg) stream) = length stream
      /\ count_events is_store (fit cfg (init cfg) stream) = length stream
      /\ memory (fit cfg (init cfg) stream)
         = ReplayMemory.append_all (ReplayMemory.new (capacity cfg)) stream).
Proof.
  assert (Hok : trace_ok cfg (fit cfg (init cfg) stream)).
  { apply fit_invariant. split.
    - intros k Hk. cbn in Hk. apply elem_of_nil in Hk. contradiction.
    - intros k Hk. cbn in Hk. lia. }
  destruct Hok as [Htrain Hact].
  split; [intros k Hk; specialize (Htrain k Hk); lia |].
  split; [exact Hact |].
  intros Hwarm Htotal.
  destruct (fit_warmup stream (init cfg)) as (Hg & Hm & Ht & Ha & Hs);
    [cbn; lia |].
  cbn [init global_step memory] in *.
  rewrite Nat.sub_0_r, Nat.min_l in * by lia.
  rewrite firstn_all in Hm.
  unfold count_events in *. cbn [init trace count_if] in *.
  repeat split; assumption.
Qed.

End WarmupFacts.

Lemma warmup_no_training_witness :
  let cfg := TrainingLoop.mk_config 100 20 4 50 in
  let stream := map TrainingLoop.stub_transition (seq 1 3) in
  TrainingLoop.count_events TrainingLoop.is_train
    (TrainingLoop.fit cfg (TrainingLoop.init cfg) stream) = 0%nat
  /\ TrainingLoop.count_events TrainingLoop.is_store
       (TrainingLoop.fit cfg (TrainingLoop.init cfg) stream) = 3%nat.
Proof.
  intros cfg stream.
  assert (H20 : (3 <= 20)%nat) by (repeat constructor).
  assert (H50 : (3 <= 50)%nat) by (repeat constructor).
  destruct (proj2 (proj2 (warmup_no_training cfg stream)) H20 H50)
    as (_ & Htrain & _ & Hstore & _).
  split; [exact Htrain | exact Hstore].
Defined.

(** The end-to-end scenario of the spec: capacity 100, 20 warmup steps, a
    training step every 4 steps, 50 steps on a stub environment that ends
    an episode every 10 steps: 7 training steps and 5 episode ends. *)
Example end_to_end_scenario :
  let cfg := TrainingLoop.mk_config 100 20 4 50 in
  let s := TrainingLoop.fit cfg (TrainingLoop.init cfg)
             (map TrainingLoop.stub_transition (seq 1 60)) in
  TrainingLoop.global_step s = 50%nat
  /\ TrainingLoop.count_events TrainingLoop.is_train s = 7%nat
  /\ TrainingLoop.count_events TrainingLoop.is_episode_end s = 5%nat.
Proof. vm_compute. repeat split. Qed.

(** * Further properties of the scripts *)

(** ** [process_reward]: order, distance and sign *)

Section ProcessRewardFacts.
Import FlappyBirdProcessor.
Local Open Scope Q_scope.

(** X1: clipping keeps the order of two rewards and never moves them
    further apart: for [a <= b], [process_reward a <= process_reward b]
    and [process_reward b - process_reward a <= b - a]. *)
Theorem process_reward_monotone (a b : Q) :
  a <= b ->
  process_reward a <= process_reward b
  /\ process_reward b - process_reward a <= b - a.
Proof.
  intros Hab.
  destruct (process_reward_cases a) as [[Ha ->] | [[Ha ->] | [Ha ->]]];
    destruct (process_reward_cases b) as [[Hb ->] | [[Hb ->] | [Hb ->]]];
    split; lra.
Qed.

Lemma process_reward_monotone_witness :
  (-3 <= 1 # 2)
  /\ process_reward (-3) <= process_reward (1 # 2)
  /\ process_reward (1 # 2) - process_reward (-3) <= (1 # 2) - -3.
Proof.
  assert (H : -3 <= 1 # 2) by (unfold Qle; cbn; lia).
  split; [exact H | exact (process_reward_monotone (-3) (1 # 2) H)].
Defined.

(** X2: clipping keeps the sign of a reward (positive stays positive,
    negative stays negative, zero stays zero) and commutes with negation:
    [process_reward (- r) == - process_reward r]. *)
Theorem process_reward_sign (r : Q) :
  (0 < r -> 0 < process_reward r)
  /\ (r < 0 -> process_reward r < 0)
  /\ (r == 0 -> process_reward r == 0)
  /\ process_reward (- r) == - process_reward r.
Proof.
  destruct (process_reward_cases r) as [[Hr Er] | [[Hr Er] | [Hr Er]]];
    destruct (process_reward_cases (- r)) as [[Hn En] | [[Hn En] | [Hn En]]];
    rewrite Er, En; repeat split; intros; lra.
Qed.

Lemma process_reward_sign_witness :
  0 < process_reward (7 # 2) /\ process_reward (- (7 # 2)) < 0.
Proof.
  split.
  - apply (proj1 (process_reward_sign (7 # 2))). reflexivity.
  - apply (proj1 (proj2 (process_reward_sign (- (7 # 2))))). reflexivity.
Defined.

End ProcessRewardFacts.

(** ** [process_state_batch]: nothing of the stored bytes is lost *)

Section ProcessStateBatchFacts.
Import FlappyBirdProcessor.
Local Open Scope Q_scope.

Lemma byte_of_rescaled_inverse (b : byte) :
  byte_of_rescaled (float32_div (astype_float32 b) 255) = b.
Proof. destruct b; vm_compute; reflexivity. Qed.

(** X3: the stored bytes can be read back from the rescaled batch: rounding
    [255 * y] to the nearest integer gives the byte [y] came from, for
    every element of every batch. *)
Theorem process_state_batch_lossless (batch : ndarray byte) :
  map byte_of_rescaled (data (process_state_batch batch)) = data batch.
Proof.
  unfold process_state_batch, ndarray_map. cbn [data].
  induction (data batch) as [| b l IH]; [reflexivity |].
  cbn [map]. rewrite byte_of_rescaled_inverse. f_equal. exact IH.
Qed.

Lemma rescaled_near (b : byte) :
  - (1 # 2 ^ 25) <= float32_div (astype_float32 b) 255 - astype_float32 b / 255
  /\ float32_div (astype_float32 b) 255 - astype_float32 b / 255 <= 1 # 2 ^ 25.
Proof.
  pose proof (rescaled_ok_all b) as H. unfold rescaled_ok in H.
  apply andb_prop in H as [_ H]. apply Qle_bool_iff in H.
  apply Qabs_Qle_condition in H. exact H.
Qed.

(** X4: rescaling keeps the order of the stored values strictly: a smaller
    byte gives a smaller float; the byte 0 gives exactly 0 and the byte 255
    exactly 1. *)
Theorem process_state_batch_order (a b : byte) :
  ((PIL.Z_of_byte a < PIL.Z_of_byte b)%Z ->
   float32_div (astype_float32 a) 255 < float32_div (astype_float32 b) 255)
  /\ float32_div (astype_float32 x00) 255 = 0
  /\ float32_div (astype_float32 xff) 255 = 1.
Proof.
  split; [| split; vm_compute; reflexivity].
  intros Hlt.
  destruct (rescaled_near a) as [_ Ha]. destruct (rescaled_near b) as [Hb _].
  unfold astype_float32 in *.
  assert (Hstep : inject_Z (PIL.Z_of_byte a) + 1 <= inject_Z (PIL.Z_of_byte b)).
  { change 1 with (inject_Z 1). rewrite <- inject_Z_plus, <- Zle_Qle. lia. }
  set (ya := float32_div (inject_Z (PIL.Z_of_byte a)) 255) in *.
  set (yb := float32_div (inject_Z (PIL.Z_of_byte b)) 255) in *.
  set (qa := inject_Z (PIL.Z_of_byte a)) in *.
  set (qb := inject_Z (PIL.Z_of_byte b)) in *.
  assert (H25 : (1 # 2 ^ 25) == 1 # 33554432) by reflexivity.
  rewrite H25 in *. clear H25 Hlt.
  change (qa / 255) with (qa * (1 # 255)) in Ha.
  change (qb / 255) with (qb * (1 # 255)) in Hb.
  clearbody ya yb qa qb.
  lra.
Qed.

Lemma process_state_batch_order_witness :
  float32_div (astype_float32 x7f) 255 < float32_div (astype_float32 x80) 255.
Proof.
  apply (proj1 (process_state_batch_order x7f x80)). reflexivity.
Defined.

End ProcessStateBatchFacts.

(** ** From a frame to the input of the network *)

Section FramePipelineFacts.
Import FlappyBirdProcessor.
Local Open Scope Q_scope.

(** X5: whatever [process_observation] returns can be handed to
    [process_state_batch]: the result has shape (84, 84), holds 84 * 84
    numbers, and every one of them lies in [0, 1]. *)
Theorem processed_frame_normalized (pil : PIL.backend)
        (observation out : ndarray byte) :
  process_observation pil observation = Ok out ->
  shape (process_state_batch out) = [84; 84]%nat
  /\ length (data (process_state_batch out)) = (84 * 84)%nat
  /\ forall y : Q, y ∈ data (process_state_batch out) -> 0 <= y <= 1.
Proof.
  intros Hout.
  assert (Himg : exists img, PIL.fromarray pil observation = Ok img).
  { unfold process_observation in Hout.
    destruct (PIL.fromarray pil observation) as [img | e]; [eexists; reflexivity |].
    discriminate Hout. }
  destruct Himg as [img Himg].
  destruct (process_observation_of_image pil observation img Himg)
    as (out' & Hout' & Hshape & Hlen).
  rewrite Hout in Hout'. injection Hout' as <-.
  split; [exact Hshape |].
  split; [unfold process_state_batch, ndarray_map; cbn [data];
          rewrite length_map; exact Hlen |].
  intros y Hy. unfold process_state_batch, ndarray_map in Hy. cbn [data] in Hy.
  apply list_elem_of_fmap in Hy as (b & -> & _).
  pose proof (rescaled_ok_all b) as H. unfold rescaled_ok in H.
  apply andb_prop in H as [H _]. apply andb_prop in H as [H1 H2].
  apply Qle_bool_iff in H1, H2. split; assumption.
Qed.

Lemma processed_frame_normalized_witness :
  exists out : ndarray byte,
    process_observation PIL.reference_backend
      (mk_ndarray [2; 3; 3]%nat (repeat x80 18)) = Ok out
    /\ shape (process_state_batch out) = [84; 84]%nat.
Proof.
  destruct (process_observation_of_image PIL.reference_backend
              (mk_ndarray [2; 3; 3]%nat (repeat x80 18))
              (PIL.mk_image PIL.RGB (3, 2)%nat
                 (fun x y => take 3 (drop ((y * 3 + x) * 3) (repeat x80 18))))
              eq_refl) as (out & Hout & _).
  exists out. split; [exact Hout |].
  exact (proj1 (processed_frame_normalized PIL.reference_backend _ out Hout)).
Defined.

End FramePipelineFacts.

(** ** [TensorboardCallback]: sequences of calls *)

Section CallbackRunFacts.
Import Deque TensorboardCallback.
Local Open Scope string_scope.
Local Open Scope list_scope.
Context {num : numerics}.

Lemma run_app (calls1 calls2 : list call) (self : t) :
  run self (calls1 ++ calls2)
  = match run self calls1 with
    | Returned self' => run self' calls2
    | Raised e self' => Raised e self'
    end.
Proof.
  revert self. induction calls1 as [| c calls1 IH]; intros self; [reflexivity |].
  cbn [app run]. destruct (invoke self c); [apply IH | reflexivity].
Qed.

Lemma invoke_buffers (rl dl : nat) (self : t) (c : call) :
  buffers rl dl self -> buffers rl dl (state_of (invoke self c)).
Proof.
  intros Hb. destruct c as [step logs | step logs]; cbn [invoke].
  - exact (proj1 (on_step_end_outcome rl dl self step logs Hb)).
  - exact (proj1 (on_episode_end_outcome rl dl self step logs Hb)).
Qed.

(** A property of the callback that every single call keeps, in the state
    the call leaves whether it returns or raises, holds after every
    sequence of calls. *)
Lemma run_state_invariant (I : t -> Prop) (Pc : call -> Prop) (rl dl : nat) :
  (forall s c, Pc c -> buffers rl dl s -> I s -> I (state_of (invoke s c))) ->
  forall (calls : list call) (self : t),
    Forall Pc calls -> buffers rl dl self -> I self ->
    I (state_of (run self calls)).
Proof.
  intros Hstep calls. induction calls as [| c calls IH]; intros self Hcalls Hb HI.
  - exact HI.
  - apply Forall_cons in Hcalls as [Hc Hcalls]. cbn [run].
    pose proof (Hstep self c Hc Hb HI) as HI1.
    pose proof (invoke_buffers rl dl self c Hb) as Hb1.
    destruct (invoke self c) as [self1 | e self1]; cbn [state_of] in *.
    + apply IH; assumption.
    + exact HI1.
Qed.

Lemma window_all {A : Type} (n : nat) (l : list A) :
  (length l <= n)%nat -> window n l = l.
Proof.
  intros Hle. unfold window. replace (length l - n)%nat with 0%nat by lia.
  apply drop_0.
Qed.

Lemma window_app {A : Type} (n : nat) (l l' : list A) :
  window n (window n l ++ l') = window n (l ++ l').
Proof.
  unfold window. rewrite !length_app, length_drop.
  destruct (Nat.le_gt_cases (length l) n) as [Hle | Hgt].
  - replace (length l - n)%nat with 0%nat by lia.
    rewrite drop_0, Nat.sub_0_r. reflexivity.
  - replace (length l - (length l - n) + length l' - n)%nat
      with (length l')%nat by lia.
    replace (length l + length l' - n)%nat
      with ((length l - n) + length l')%nat by lia.
    rewrite <- drop_drop.
    rewrite (drop_app_le l l' (length l - n)) by lia.
    reflexivity.
Qed.

Lemma deque_append_window {A : Type} (n : nat) (l : list A) (x : A) :
  (length l <= n)%nat ->
  items (append (mk_deque l n) x) = window n (l ++ [x]).
Proof.
  intros Hle. unfold append, window. cbn [items maxlen].
  rewrite length_app. cbn [length].
  destruct (Nat.ltb_spec n (length l + 1)) as [Hfull | Hroom].
  - replace (length l + 1 - n)%nat with 1%nat by lia.
    destruct l; reflexivity.
  - replace (length l + 1 - n)%nat with 0%nat by lia. rewrite drop_0.
    reflexivity.
Qed.

Lemma buffer_len_items (self : t) (k : string) :
  buffer_len self k = length (buffer_items self k).
Proof.
  unfold buffer_len, buffer_items, len.
  destruct (dict_get (running_data self) k); reflexivity.
Qed.

Lemma calls_of_step_end (step : Z) (logs : gmap string Q) (r : Q)
      (calls : list call) :
  logs !! "reward" = Some r ->
  rewards_of (step_end step logs :: calls) = r :: rewards_of calls
  /\ durations_of (step_end step logs :: calls) = durations_of calls.
Proof.
  intros Hr. unfold rewards_of, durations_of. cbn. rewrite Hr.
  split; reflexivity.
Qed.

Lemma calls_of_episode_end (step : Z) (logs : gmap string Q) (n : Q)
      (calls : list call) :
  logs !! "nb_episode_steps" = Some n ->
  rewards_of (episode_end step logs :: calls) = rewards_of calls
  /\ durations_of (episode_end step logs :: calls) = n :: durations_of calls.
Proof.
  intros Hn. unfold rewards_of, durations_of. cbn. rewrite Hn.
  split; reflexivity.
Qed.

Lemma run_windows (rl dl : nat) (calls : list call) (self self' : t) :
  buffers rl dl self ->
  run self calls = Returned self' ->
  buffer_items self' "reward"
  = window rl (buffer_items self "reward" ++ rewards_of calls)
  /\ buffer_items self' "episode_duration"
     = window dl (buffer_items self "episode_duration" ++ durations_of calls).
Proof.
  revert self. induction calls as [| c calls IH]; intros self Hb Hrun.
  - cbn in Hrun. injection Hrun as <-. cbn. rewrite !app_nil_r.
    destruct (buffers_len rl dl self Hb) as [Hr Hd].
    rewrite !buffer_len_items in *.
    rewrite !window_all by assumption. split; reflexivity.
  - cbn [run] in Hrun.
    pose proof (invoke_buffers rl dl self c Hb) as Hb1.
    destruct (buffers_len rl dl self Hb) as [Hr Hd].
    rewrite !buffer_len_items in *.
    destruct (invoke self c) as [self1 | e self1] eqn:Hinv; [| discriminate].
    cbn [state_of] in Hb1.
    destruct (IH self1 Hb1 Hrun) as [IHr IHd]. rewrite IHr, IHd.
    destruct c as [step logs | step logs]; cbn [invoke] in Hinv.
    + destruct (on_step_end_outcome rl dl self step logs Hb)
        as (_ & _ & _ & _ & Hitems).
      rewrite Hinv in Hitems. cbn [state_of] in Hitems.
      destruct (logs !! "reward") as [r |] eqn:Hr'.
      * destruct (Hitems r eq_refl) as [Hir Hid]. rewrite Hir, Hid.
        destruct (calls_of_step_end step logs r calls Hr') as [-> ->].
        rewrite deque_append_window by assumption.
        rewrite window_app, <- app_assoc. split; reflexivity.
      * exfalso. unfold on_step_end in Hinv. rewrite Hr' in Hinv.
        destruct (dict_get (running_data self) "reward"); discriminate.
    + destruct (on_episode_end_outcome rl dl self step logs Hb)
        as (_ & _ & _ & _ & Hitems).
      rewrite Hinv in Hitems. cbn [state_of] in Hitems.
      destruct (logs !! "nb_episode_steps") as [n |] eqn:Hn.
      * destruct (Hitems n eq_refl) as [Hid Hir]. rewrite Hir, Hid.
        destruct (calls_of_episode_end step logs n calls Hn) as [-> ->].
        rewrite deque_append_window by assumption.
        rewrite window_app, <- app_assoc. split; reflexivity.
      * exfalso. unfold on_episode_end in Hinv. rewrite Hn in Hinv.
        destruct (dict_get (running_data self) "episode_duration"); discriminate.
Qed.

(** X6: the two buffers are running windows: once a sequence of calls has
    returned, the reward buffer holds the last [reward_buffer_length]
    rewards handed to [on_step_end], oldest first, and the episode-duration
    buffer the last [episode_duration_buffer_length] episode lengths handed
    to [on_episode_end]. *)
Theorem tensorboard_running_windows
        (log_interval reward_buffer_length episode_duration_buffer_length : Z)
        (self0 self : t) (calls : list call) :
  __init__ log_interval reward_buffer_length episode_duration_buffer_length
  = Ok self0 ->
  run self0 calls = Returned self ->
  buffer_items self "reward"
  = window (Z.to_nat reward_buffer_length) (rewards_of calls)
  /\ buffer_items self "episode_duration"
     = window (Z.to_nat episode_duration_buffer_length) (durations_of calls).
Proof.
  intros Hinit Hrun.
  destruct (init_buffers _ _ _ _ Hinit) as (Hb0 & _ & _).
  destruct (run_windows _ _ calls self0 self Hb0 Hrun) as [Hr Hd].
  assert (Hempty : buffer_items self0 "reward" = []
                   /\ buffer_items self0 "episode_duration" = []).
  { rewrite (init_fresh _ _ _ _ Hinit). split; reflexivity. }
  destruct Hempty as [Er Ed]. rewrite Er in Hr. rewrite Ed in Hd.
  split; assumption.
Qed.

End CallbackRunFacts.

Section CallbackRunExamples.
Import Deque TensorboardCallback.
Local Open Scope string_scope.
Local Open Scope list_scope.
Local Existing Instance reference_numerics.

Lemma tensorboard_running_windows_witness :
  let self0 :=
    mk 2 0 [("reward", mk_deque [] 2); ("episode_duration", mk_deque [] 1)] [] in
  let calls :=
    [step_end 0 {["reward" := 1%Q]}; step_end 1 {["reward" := 3%Q]};
     episode_end 1 {["nb_episode_steps" := 2%Q]};
     step_end 2 {["reward" := 5%Q]}] in
  exists self : t,
    run self0 calls = Returned self
    /\ buffer_items self "reward" = [3%Q; 5%Q].
Proof.
  intros self0 calls.
  destruct (run self0 calls) as [self | e self] eqn:Hrun;
    [| vm_compute in Hrun; discriminate Hrun].
  exists self. split; [reflexivity |].
  exact (proj1 (tensorboard_running_windows 2 2 1 self0 self calls eq_refl Hrun)).
Defined.

End CallbackRunExamples.

(** ** [TensorboardCallback]: exceptions *)

Section CallbackErrorFacts.
Import Deque TensorboardCallback.
Local Open Scope string_scope.
Local Open Scope list_scope.
Context {num : numerics}.

Lemma invoke_missing_key (self : t) (c : call) :
  ~ has_keys c -> invoke self c = Raised KeyError self.
Proof.
  destruct c as [step logs | step logs]; cbn [invoke has_keys]; intros Hno.
  - unfold on_step_end.
    destruct (logs !! "reward") as [r |]; [exfalso; apply Hno; eexists; reflexivity |].
    destruct (dict_get (running_data self) "reward"); reflexivity.
  - unfold on_episode_end.
    destruct (logs !! "nb_episode_steps") as [n |];
      [exfalso; apply Hno; eexists; reflexivity |].
    destruct (dict_get (running_data self) "episode_duration"); reflexivity.
Qed.

(** X7: a call whose [logs] lacks the key the callback reads ("reward" for
    [on_step_end], "nb_episode_steps" for [on_episode_end]) raises
    [KeyError] and changes nothing: the callback stays exactly as the calls
    before left it, and the calls after it are not made. *)
Theorem tensorboard_missing_key
        (self self1 : t) (calls1 calls2 : list call) (c : call) :
  run self calls1 = Returned self1 ->
  ~ has_keys c ->
  invoke self1 c = Raised KeyError self1
  /\ run self (calls1 ++ c :: calls2) = Raised KeyError self1.
Proof.
  intros Hrun Hno.
  pose proof (invoke_missing_key self1 c Hno) as Hinv.
  split; [exact Hinv |].
  rewrite run_app, Hrun. cbn [run]. rewrite Hinv. reflexivity.
Qed.

Lemma on_step_end_zero_interval (rl dl : nat) (self : t) (step : Z)
      (logs : gmap string Q) (r : Q) :
  buffers rl dl self ->
  log_interval self = 0%Z ->
  logs !! "reward" = Some r ->
  exists self' : t,
    on_step_end self step logs = Raised ZeroDivisionError self'
    /\ iterations self' = iterations self
    /\ tensorboard_writer self' = tensorboard_writer self
    /\ buffer_items self' "reward" = window rl (buffer_items self "reward" ++ [r])
    /\ buffer_items self' "episode_duration" = buffer_items self "episode_duration".
Proof.
  intros (dr & dd & Hrd & Hmr & Hmd & Hlr & Hld) Hli Hr.
  rewrite (on_step_end_eq self step logs dr dd Hrd), Hr, Hli. cbv zeta.
  change (0 =? 0)%Z with true. cbv iota.
  eexists. split; [reflexivity |].
  cbn [iterations tensorboard_writer].
  split; [reflexivity |]. split; [reflexivity |].
  unfold buffer_items. rewrite Hrd. cbn [running_data].
  change (dict_get [("reward", append dr r); ("episode_duration", dd)] "reward")
    with (Ok (append dr r)).
  change (dict_get [("reward", dr); ("episode_duration", dd)] "reward")
    with (Ok dr).
  change (dict_get [("reward", append dr r); ("episode_duration", dd)]
            "episode_duration") with (Ok dd).
  change (dict_get [("reward", dr); ("episode_duration", dd)]
            "episode_duration") with (Ok dd).
  split; [| reflexivity].
  rewrite <- (deque_append_window rl (items dr) r) by exact Hlr.
  unfold append. cbn [items maxlen]. rewrite Hmr. reflexivity.
Qed.

(** X8: a callback built with [log_interval = 0] cannot count a step:
    every [on_step_end] that finds its reward raises [ZeroDivisionError],
    after the reward was put into the buffer and before anything is logged
    or [iterations] is incremented.  Whatever is called, [iterations] stays
    0 and nothing is ever written. *)
Theorem tensorboard_zero_log_interval
        (reward_buffer_length episode_duration_buffer_length : Z)
        (self0 : t) (calls : list call) :
  __init__ 0 reward_buffer_length episode_duration_buffer_length = Ok self0 ->
  iterations (state_of (run self0 calls)) = 0%Z
  /\ tensorboard_writer (state_of (run self0 calls)) = []
  /\ (forall (self : t) (step : Z) (logs : gmap string Q) (r : Q),
        run self0 calls = Returned self ->
        logs !! "reward" = Some r ->
        exists self' : t,
          on_step_end self step logs = Raised ZeroDivisionError self'
          /\ iterations self' = 0%Z
          /\ buffer_items self' "reward"
             = window (Z.to_nat reward_buffer_length)
                      (buffer_items self "reward" ++ [r])).
Proof.
  intros Hinit.
  destruct (init_buffers _ _ _ _ Hinit) as (Hb0 & Hit0 & Hli0).
  set (rl := Z.to_nat reward_buffer_length) in *.
  set (dl := Z.to_nat episode_duration_buffer_length) in *.
  assert (Hw0 : tensorboard_writer self0 = []).
  { rewrite (init_fresh _ _ _ _ Hinit). reflexivity. }
  assert (Hinv : (fun s => log_interval s = 0%Z /\ iterations s = 0%Z
                           /\ tensorboard_writer s = [])
                   (state_of (run self0 calls))).
  { apply (run_state_invariant
             (fun s => log_interval s = 0%Z /\ iterations s = 0%Z
                       /\ tensorboard_writer s = [])
             (fun _ => True) rl dl).
    - intros s c _ Hb (Hli & Hit & Hw).
      destruct Hb as (dr & dd & Hrd & Hrest).
      destruct c as [step logs | step logs]; cbn [invoke].
      + rewrite (on_step_end_eq s step logs dr dd Hrd), Hli.
        change (0 =? 0)%Z with true.
        destruct (logs !! "reward"); cbn; repeat split; assumption.
      + rewrite (on_episode_end_eq s step logs dr dd Hrd).
        destruct (logs !! "nb_episode_steps"); cbn; repeat split; assumption.
    - apply Forall_forall. intros; exact I.
    - exact Hb0.
    - repeat split; assumption. }
  cbv beta in Hinv. destruct Hinv as (Hli & Hit & Hw).
  split; [exact Hit |]. split; [exact Hw |].
  intros self step logs r Hrun Hr.
  rewrite Hrun in Hli, Hit. cbn [state_of] in Hli, Hit.
  assert (Hb : buffers rl dl self).
  { pose proof (proj1 (run_outcome rl dl calls self0 Hb0)) as Hb.
    rewrite Hrun in Hb. exact Hb. }
  destruct (on_step_end_zero_interval rl dl self step logs r Hb Hli Hr)
    as (self' & Hraise & Hit' & _ & Hitems & _).
  exists self'. split; [exact Hraise |]. split; [congruence | exact Hitems].
Qed.

End CallbackErrorFacts.

Section CallbackErrorExamples.
Import Deque TensorboardCallback.
Local Open Scope string_scope.
Local Open Scope list_scope.
Local Existing Instance reference_numerics.

Lemma tensorboard_missing_key_witness :
  let self0 :=
    mk 2 0 [("reward", mk_deque [] 2); ("episode_duration", mk_deque [] 1)] [] in
  let self1 :=
    mk 2 1 [("reward", mk_deque [1%Q] 2); ("episode_duration", mk_deque [] 1)]
       [mk_summary "reward-mean" 1%Q 0] in
  run self0 ([step_end 0 {["reward" := 1%Q]}]
             ++ step_end 1 ∅ :: [step_end 2 {["reward" := 5%Q]}])
  = Raised KeyError self1.
Proof.
  intros self0 self1.
  refine (proj2 (tensorboard_missing_key self0 self1
                   [step_end 0 {["reward" := 1%Q]}]
                   [step_end 2 {["reward" := 5%Q]}] (step_end 1 ∅) eq_refl _)).
  cbn [has_keys]. rewrite lookup_empty. intros [x Hx]. discriminate Hx.
Defined.

Lemma tensorboard_zero_log_interval_witness :
  let self0 :=
    mk 0 0 [("reward", mk_deque [] 2); ("episode_duration", mk_deque [] 1)] [] in
  iterations (state_of (run self0 [step_end 0 {["reward" := 1%Q]}])) = 0%Z.
Proof.
  intros self0.
  exact (proj1 (tensorboard_zero_log_interval 2 1 self0
                  [step_end 0 {["reward" := 1%Q]}] eq_refl)).
Defined.

End CallbackErrorExamples.

(** ** [TensorboardCallback]: what is written, and when *)

Section CallbackLogFacts.
Import Deque TensorboardCallback.
Local Open Scope string_scope.
Local Open Scope list_scope.
Context {num : numerics}.

Lemma logging_steps_S (li : Z) (n : nat) :
  logging_steps li (S n)
  = logging_steps li n
    ++ if (Z.of_nat n mod li =? 0)%Z then [Z.of_nat n] else [].
Proof.
  unfold logging_steps. rewrite seq_S, map_app, List.filter_app.
  cbn [Nat.add map List.filter]. destruct (Z.of_nat n mod li =? 0)%Z; reflexivity.
Qed.

Lemma deque_append_nonempty {A : Type} (d : deque A) (x : A) :
  (0 < maxlen d)%nat -> (0 < len (append d x))%nat.
Proof.
  intros Hmax. unfold len, append. cbn [items maxlen].
  destruct (Nat.ltb_spec (maxlen d) (length (items d ++ [x]))) as [Hfull | Hroom].
  - rewrite length_app in Hfull. cbn [length] in Hfull.
    destruct (items d) as [| y l]; cbn in *; [lia |].
    rewrite length_app. cbn. lia.
  - rewrite length_app. cbn. lia.
Qed.

Lemma tagged_reward_means_of (dr dd : deque Q) (step : Z) :
  (0 < len dr)%nat ->
  List.filter (fun s => String.eqb (tag s) "reward-mean") (means_of dr dd step)
  = [mk_summary "reward-mean" (float32 (np_mean (items dr))) step].
Proof.
  intros Hlen. unfold means_of.
  destruct (Nat.ltb_spec 0 (len dr)) as [_ | ?]; [| lia].
  destruct (0 <? len dd)%nat; reflexivity.
Qed.

Lemma invoke_logging_steps (li : Z) (rl dl : nat) (s : t) (c : call) :
  (0 < rl)%nat ->
  buffers rl dl s ->
  log_interval s = li /\ (0 <= iterations s)%Z
  /\ steps_tagged "reward-mean" s = logging_steps li (Z.to_nat (iterations s)) ->
  log_interval (state_of (invoke s c)) = li
  /\ (0 <= iterations (state_of (invoke s c)))%Z
  /\ steps_tagged "reward-mean" (state_of (invoke s c))
     = logging_steps li (Z.to_nat (iterations (state_of (invoke s c)))).
Proof.
  intros Hrl (dr & dd & Hrd & Hmr & Hrest) (Hli & Hit & Hsteps).
  destruct c as [step logs | step logs]; cbn [invoke].
  - rewrite (on_step_end_eq s step logs dr dd Hrd).
    destruct (logs !! "reward") as [r |]; [| repeat split; assumption].
    cbv zeta. destruct (log_interval s =? 0)%Z;
      [cbn [state_of log_interval iterations]; repeat split; assumption |].
    cbn [state_of log_interval iterations].
    split; [exact Hli |]. split; [lia |].
    unfold steps_tagged, tagged in *. cbn [tensorboard_writer].
    rewrite List.filter_app, map_app, Hsteps.
    replace (Z.to_nat (iterations s + 1)) with (S (Z.to_nat (iterations s))) by lia.
    rewrite logging_steps_S, Z2Nat.id, Hli by exact Hit.
    f_equal.
    destruct (iterations s mod li =? 0)%Z; [| reflexivity].
    rewrite tagged_reward_means_of; [reflexivity |].
    apply deque_append_nonempty. lia.
  - rewrite (on_episode_end_eq s step logs dr dd Hrd).
    destruct (logs !! "nb_episode_steps"); repeat split; assumption.
Qed.

(** X10: with a reward buffer of length at least one, after [n] calls of
    [on_step_end] (and any number of [on_episode_end] calls in between)
    the "reward-mean" summaries are those of the calls number
    [i = 0, 1, ..., n - 1] with [i % log_interval == 0], in that order, each
    carrying its [i] as step: the first call always logs. *)
Theorem tensorboard_logging_schedule
        (log_interval reward_buffer_length episode_duration_buffer_length : Z)
        (self0 self : t) (calls : list call) :
  __init__ log_interval reward_buffer_length episode_duration_buffer_length
  = Ok self0 ->
  (0 < reward_buffer_length)%Z ->
  run self0 calls = Returned self ->
  steps_tagged "reward-mean" self
  = logging_steps log_interval (count_if is_step_end calls).
Proof.
  intros Hinit Hrl Hrun.
  destruct (init_buffers _ _ _ _ Hinit) as (Hb0 & Hit0 & Hli0).
  assert (Hw0 : tensorboard_writer self0 = []).
  { rewrite (init_fresh _ _ _ _ Hinit). reflexivity. }
  pose proof (run_state_invariant
                (fun s => TensorboardCallback.log_interval s = log_interval
                          /\ (0 <= iterations s)%Z
                          /\ steps_tagged "reward-mean" s
                             = logging_steps log_interval
                                 (Z.to_nat (iterations s)))
                (fun _ => True)
                (Z.to_nat reward_buffer_length)
                (Z.to_nat episode_duration_buffer_length)) as Hinv.
  cbv beta in Hinv.
  assert (Hrl' : (0 < Z.to_nat reward_buffer_length)%nat) by lia.
  destruct (Hinv (fun s c _ Hb HI =>
                    invoke_logging_steps log_interval _ _ s c Hrl' Hb HI)
                 calls self0) as (_ & _ & Hsteps).
  - apply Forall_forall. intros; exact I.
  - exact Hb0.
  - split; [exact Hli0 |]. split; [lia |].
    unfold steps_tagged, tagged. rewrite Hw0, Hit0. reflexivity.
  - rewrite Hrun in Hsteps. cbn [state_of] in Hsteps. rewrite Hsteps.
    destruct (run_outcome _ _ calls self0 Hb0) as (_ & _ & Hit & _).
    rewrite (Hit self Hrun), Hit0. f_equal. lia.
Qed.

End CallbackLogFacts.

Section CallbackLogExamples.
Import Deque TensorboardCallback.
Local Open Scope string_scope.
Local Open Scope list_scope.
Local Existing Instance reference_numerics.

Lemma tensorboard_logging_schedule_witness :
  let self0 :=
    mk 2 0 [("reward", mk_deque [] 2); ("episode_duration", mk_deque [] 1)] [] in
  let calls :=
    [step_end 0 {["reward" := 1%Q]}; step_end 1 {["reward" := 3%Q]};
     episode_end 1 {["nb_episode_steps" := 2%Q]};
     step_end 2 {["reward" := 5%Q]}] in
  exists self : t,
    run self0 calls = Returned self
    /\ steps_tagged "reward-mean" self = [0; 2]%Z.
Proof.
  intros self0 calls.
  destruct (run self0 calls) as [self | e self] eqn:Hrun;
    [| vm_compute in Hrun; discriminate Hrun].
  exists self. split; [reflexivity |].
  exact (tensorboard_logging_schedule 2 2 1 self0 self calls eq_refl eq_refl Hrun).
Defined.

End CallbackLogExamples.

(** ** [TensorboardCallback]: rounding and the mean of clipped rewards *)

Section FloatFacts.
Import Float.
Local Open Scope Q_scope.

Lemma round_half_even_le (q : Q) (n : Z) :
  q <= inject_Z n -> (round_half_even q <= n)%Z.
Proof.
  intros Hq. unfold round_half_even.
  pose proof (Qfloor_le q) as Hf.
  assert (Hfn : (Qfloor q <= n)%Z).
  { rewrite <- (Qfloor_Z n). apply Qfloor_resp_le. exact Hq. }
  assert (Hstrict : 0 < q - inject_Z (Qfloor q) -> (Qfloor q + 1 <= n)%Z).
  { intros Hpos.
    assert (Hlt : inject_Z (Qfloor q) < inject_Z n) by lra.
    rewrite <- Zlt_Qlt in Hlt. lia. }
  destruct (Qcompare_spec (q - inject_Z (Qfloor q)) (1 # 2)) as [He | Hl | Hg].
  - destruct (Z.even (Qfloor q)); [exact Hfn |]. apply Hstrict. lra.
  - exact Hfn.
  - apply Hstrict. lra.
Qed.

Lemma round_half_even_ge (q : Q) (n : Z) :
  inject_Z n <= q -> (n <= round_half_even q)%Z.
Proof.
  intros Hq. unfold round_half_even.
  assert (Hfn : (n <= Qfloor q)%Z).
  { rewrite <- (Qfloor_Z n). apply Qfloor_resp_le. exact Hq. }
  destruct (q - inject_Z (Qfloor q) ?= 1 # 2); [destruct (Z.even (Qfloor q)) | |];
    lia.
Qed.

Lemma ilog2_lt (a : Q) (m : Z) :
  0 < a -> (0 <= m)%Z -> a < inject_Z (2 ^ m) -> (ilog2 a < m)%Z.
Proof.
  intros Ha Hm Hlt. unfold ilog2.
  destruct a as [num den]. cbn [Qnum Qden].
  assert (Hnum : (0 < num)%Z).
  { unfold Qlt in Ha. cbn in Ha. lia. }
  assert (Hnd : (num < 2 ^ m * Z.pos den)%Z).
  { unfold Qlt in Hlt. cbn in Hlt. lia. }
  assert (Hk : (Z.log2 num - Z.log2 (Z.pos den) <= m)%Z).
  { assert (H : (Z.log2 num <= Z.log2 (Z.pos den * 2 ^ m))%Z)
      by (apply Z.log2_le_mono; lia).
    rewrite Z.log2_mul_pow2 in H by lia. lia. }
  destruct (Qle_bool (2 ^ (Z.log2 num - Z.log2 (Z.pos den))) (num # den))
    eqn:Hle; [| lia].
  apply Qle_bool_iff in Hle.
  destruct (Z.eq_dec (Z.log2 num - Z.log2 (Z.pos den))%Z m) as [Heq | Hne];
    [| lia].
  rewrite Heq in Hle.
  change (2 : Q) with (inject_Z 2) in Hle.
  rewrite <- Zpower_Qpower in Hle by exact Hm. lra.
Qed.

(** The value rounded onto a grid of spacing [2 ^ (e - p)] does not pass a
    point of the grid. *)
Lemma grid_round_bounds (p e : Z) (a : Q) (k : Z) :
  (e <= p)%Z -> 0 <= a -> a <= inject_Z k ->
  0 <= inject_Z (round_half_even (a * 2 ^ (p - e))) * 2 ^ (e - p) <= inject_Z k.
Proof.
  intros He Ha Hk.
  assert (Hpow : 0 < 2 ^ (e - p)) by (apply Qpower_0_lt; lra).
  assert (Hint : (2 : Q) ^ (p - e) == inject_Z (2 ^ (p - e))).
  { rewrite Zpower_Qpower by lia. reflexivity. }
  assert (Hint0 : 0 < inject_Z (2 ^ (p - e))).
  { rewrite <- Hint. apply Qpower_0_lt. lra. }
  assert (Hone : inject_Z (2 ^ (p - e)) * 2 ^ (e - p) == 1).
  { rewrite <- Hint, <- Qpower_plus by lra.
    replace (p - e + (e - p))%Z with 0%Z by lia. reflexivity. }
  assert (Hlo : (0 <= round_half_even (a * 2 ^ (p - e)))%Z).
  { apply round_half_even_ge. rewrite Hint. change (inject_Z 0) with 0.
    apply Qmult_le_0_compat; lra. }
  assert (Hhi : (round_half_even (a * 2 ^ (p - e)) <= k * 2 ^ (p - e))%Z).
  { apply round_half_even_le. rewrite Hint, inject_Z_mult.
    apply Qmult_le_compat_r; lra. }
  rewrite Zle_Qle in Hlo, Hhi. rewrite inject_Z_mult in Hhi.
  set (r := inject_Z (round_half_even (a * 2 ^ (p - e)))) in *. clearbody r.
  set (g := inject_Z (2 ^ (p - e))) in *. clearbody g.
  set (u := 2 ^ (e - p)) in *. clearbody u.
  change (inject_Z 0) with 0 in Hlo.
  split.
  - apply Qmult_le_0_compat; lra.
  - assert (H : r * u <= inject_Z k * g * u) by (apply Qmult_le_compat_r; lra).
    assert (H' : inject_Z k * g * u == inject_Z k).
    { rewrite <- Qmult_assoc, Hone. ring. }
    rewrite H' in H. exact H.
Qed.

Lemma rounding_bounds (p emin : Z) (q : Q) (k : Z) :
  (emin <= p)%Z -> (0 <= p)%Z -> (k < 2 ^ (p + 1))%Z ->
  - inject_Z k <= q <= inject_Z k ->
  let r :=
    if Qeq_bool q 0 then 0
    else
      let a := Qabs q in
      let e := Z.max (ilog2 a) emin in
      let m := inject_Z (round_half_even (a * 2 ^ (p - e))) * 2 ^ (e - p) in
      Qred (if Qle_bool 0 q then m else - m) in
  - inject_Z k <= r <= inject_Z k.
Proof.
  intros Hemin Hp Hk Hq. cbv zeta.
  destruct (Qeq_bool q 0) eqn:Hz; [lra |].
  apply Qeq_bool_neq in Hz.
  assert (Ha : 0 < Qabs q).
  { pose proof (Qabs_nonneg q) as H0.
    destruct (Qeq_dec (Qabs q) 0) as [He | Hne]; [| lra].
    exfalso. apply Hz. revert He. apply Qabs_case; intros; lra. }
  assert (Hak : Qabs q <= inject_Z k) by (apply Qabs_Qle_condition; exact Hq).
  assert (He : (Z.max (ilog2 (Qabs q)) emin <= p)%Z).
  { assert (ilog2 (Qabs q) < p + 1)%Z; [| lia].
    apply ilog2_lt; [exact Ha | lia |].
    rewrite Zlt_Qlt in Hk. lra. }
  pose proof (grid_round_bounds p _ (Qabs q) k He (Qabs_nonneg q) Hak) as [Hlo Hhi].
  rewrite Qred_correct.
  destruct (Qle_bool 0 q); lra.
Qed.

Lemma to_float64_bounds (q : Q) (k : Z) :
  (k < 2 ^ 53)%Z -> - inject_Z k <= q <= inject_Z k ->
  - inject_Z k <= to_float64 q <= inject_Z k.
Proof.
  intros Hk Hq. apply (rounding_bounds 52 (-1022) q k); [lia | lia | exact Hk | exact Hq].
Qed.

Lemma to_float32_bounds (q : Q) (k : Z) :
  (k < 2 ^ 24)%Z -> - inject_Z k <= q <= inject_Z k ->
  - inject_Z k <= to_float32 q <= inject_Z k.
Proof.
  intros Hk Hq. apply (rounding_bounds 23 (-126) q k); [lia | lia | exact Hk | exact Hq].
Qed.

End FloatFacts.

Section CallbackMeanFacts.
Import Deque TensorboardCallback.
Local Open Scope string_scope.
Local Open Scope list_scope.
Local Open Scope Q_scope.
Context {num : numerics}.

Local Notation "'clipped'" := (fun x : Q => -1 <= x <= 1).

(** A binary64 sum of [n < 2 ^ 53] numbers of [-1, 1] is in [-n, n]: the
    whole numbers up to [2 ^ 53] are binary64 numbers, and rounding to the
    nearest does not pass one. *)
Lemma float64_sum_bounds (l : list Q) (s : Q) :
  float64_sum l s ->
  (Z.of_nat (length l) < 2 ^ 53)%Z ->
  Forall clipped l ->
  - inject_Z (Z.of_nat (length l)) <= s <= inject_Z (Z.of_nat (length l)).
Proof.
  induction 1 as [| x | l1 l2 s1 s2 _ IH1 _ IH2 | l l' s Hperm _ IH];
    intros Hlen Hall.
  - change (inject_Z (Z.of_nat (length (@nil Q)))) with 0. lra.
  - apply List.Forall_inv in Hall. cbn [length].
    change (inject_Z (Z.of_nat 1)) with 1. lra.
  - apply Forall_app in Hall as [Hall1 Hall2].
    rewrite length_app, Nat2Z.inj_add in *.
    apply to_float64_bounds; [exact Hlen |].
    rewrite inject_Z_plus.
    assert (H1 := IH1 ltac:(lia) Hall1). assert (H2 := IH2 ltac:(lia) Hall2).
    lra.
  - rewrite <- (Permutation_length Hperm) in *.
    apply IH; [exact Hlen |]. rewrite Hperm. exact Hall.
Qed.

Lemma np_mean_clipped (l : list Q) :
  ieee754 num -> l <> [] -> (Z.of_nat (length l) < 2 ^ 53)%Z ->
  Forall clipped l -> clipped (float32 (np_mean l)).
Proof.
  intros [Hmean Hf32] Hne Hlen Hall.
  destruct (Hmean l Hne) as (s & Hsum & ->). rewrite Hf32.
  pose proof (float64_sum_bounds l s Hsum Hlen Hall) as Hs.
  assert (Hn : 0 < inject_Z (Z.of_nat (length l))).
  { destruct l; [congruence |]. unfold Qlt. cbn. lia. }
  set (n := inject_Z (Z.of_nat (length l))) in *. clearbody n.
  change (-1) with (- inject_Z 1). change 1 with (inject_Z 1).
  apply to_float32_bounds; [reflexivity |].
  apply to_float64_bounds; [reflexivity |].
  change (inject_Z 1) with 1. split.
  - apply Qle_shift_div_l; [exact Hn | lra].
  - apply Qle_shift_div_r; [exact Hn | lra].
Qed.

Lemma reference_sum (l : list Q) (a : Q) (l0 : list Q) :
  float64_sum l0 a ->
  float64_sum (l0 ++ l) (fold_left (fun s x => Float.to_float64 (s + x)) l a).
Proof.
  revert a l0. induction l as [| x l IH]; intros a l0 Ha.
  - rewrite app_nil_r. exact Ha.
  - cbn [fold_left].
    replace (l0 ++ x :: l) with ((l0 ++ [x]) ++ l)
      by (rewrite <- app_assoc; reflexivity).
    apply IH. apply sum_add; [exact Ha | apply sum_single].
Qed.

Lemma deque_append_Forall {A : Type} (P : A -> Prop) (d : deque A) (x : A) :
  Forall P (items d) -> P x -> Forall P (items (append d x)).
Proof.
  intros Hall Hx. unfold append. cbn [items maxlen].
  assert (Hall' : Forall P (items d ++ [x]))
    by (apply Forall_app; split; [exact Hall | repeat constructor; exact Hx]).
  destruct (maxlen d <? length (items d ++ [x]))%nat; [| exact Hall'].
  destruct (items d ++ [x]) as [| y l]; [constructor |].
  apply Forall_cons in Hall' as [_ Hl]. exact Hl.
Qed.

Lemma invoke_means_clipped (rl dl : nat) (s : t) (c : call) :
  ieee754 num -> (Z.of_nat rl < 2 ^ 53)%Z ->
  (forall step logs r, c = step_end step logs -> logs !! "reward" = Some r ->
                       clipped r) ->
  buffers rl dl s ->
  Forall clipped (buffer_items s "reward")
  /\ Forall (fun sm => tag sm = "reward-mean" -> clipped (simple_value sm))
            (tensorboard_writer s) ->
  Forall clipped (buffer_items (state_of (invoke s c)) "reward")
  /\ Forall (fun sm => tag sm = "reward-mean" -> clipped (simple_value sm))
            (tensorboard_writer (state_of (invoke s c))).
Proof.
  intros Hnum Hrl Hc (dr & dd & Hrd & Hmr & _ & Hlr & _) [Hbuf Hlog].
  assert (Hdr : Forall clipped (items dr)).
  { unfold buffer_items in Hbuf. rewrite Hrd in Hbuf. exact Hbuf. }
  destruct c as [step logs | step logs]; cbn [invoke].
  - rewrite (on_step_end_eq s step logs dr dd Hrd).
    destruct (logs !! "reward") as [r |] eqn:Hr; [| split; assumption].
    pose proof (Hc step logs r eq_refl Hr) as Hclipped.
    pose proof (deque_append_Forall _ dr r Hdr Hclipped) as Hdr'.
    assert (Hlen' : (len (append dr r) <= rl)%nat).
    { rewrite <- Hmr. apply deque_append_len. lia. }
    cbv zeta. destruct (log_interval s =? 0)%Z; cbn [state_of];
      (split; [exact Hdr' |]); cbn [tensorboard_writer]; [exact Hlog |].
    apply Forall_app. split; [exact Hlog |].
    destruct (iterations s mod log_interval s =? 0)%Z; [| constructor].
    unfold means_of. apply Forall_app. split.
    + destruct (Nat.ltb_spec 0 (len (append dr r))) as [Hlen | _]; [| constructor].
      apply Forall_singleton. cbn [tag simple_value]. intros _.
      unfold len in Hlen, Hlen'.
      apply np_mean_clipped; [exact Hnum | | lia | exact Hdr'].
      destruct (items (append dr r)); [cbn in Hlen; lia | discriminate].
    + destruct (0 <? len dd)%nat; [| constructor].
      apply Forall_singleton. cbn [tag]. discriminate.
  - rewrite (on_episode_end_eq s step logs dr dd Hrd).
    destruct (logs !! "nb_episode_steps"); cbn [state_of]; split;
      try assumption.
Qed.

(** X11: with IEEE 754 arithmetic the rounding of [np.mean] and of the
    32-bit summary value does not take a mean of clipped rewards out of
    their range: when every reward handed to [on_step_end] lies in
    [-1, 1], as [process_reward] delivers it, and the reward buffer holds
    fewer than 2 ^ 53 values, every "reward-mean" written lies in [-1, 1],
    whatever the order in which [np.mean] adds. *)
Theorem tensorboard_reward_mean_within
        (log_interval reward_buffer_length episode_duration_buffer_length : Z)
        (self0 : t) (calls : list call) :
  ieee754 num ->
  __init__ log_interval reward_buffer_length episode_duration_buffer_length
  = Ok self0 ->
  (reward_buffer_length < 2 ^ 53)%Z ->
  Forall (fun r => -1 <= r <= 1) (rewards_of calls) ->
  Forall (fun sm => -1 <= simple_value sm <= 1)
         (tagged "reward-mean" (state_of (run self0 calls))).
Proof.
  intros Hnum Hinit Hrl Hrewards.
  destruct (init_buffers _ _ _ _ Hinit) as (Hb0 & _ & _).
  pose proof (run_state_invariant
                (fun s => Forall clipped (buffer_items s "reward")
                          /\ Forall (fun sm => tag sm = "reward-mean"
                                               -> clipped (simple_value sm))
                                    (tensorboard_writer s))
                (fun c => forall step logs r,
                            c = step_end step logs ->
                            logs !! "reward" = Some r -> clipped r)
                (Z.to_nat reward_buffer_length)
                (Z.to_nat episode_duration_buffer_length)) as Hinv.
  cbv beta in Hinv.
  assert (Hrl' : (Z.of_nat (Z.to_nat reward_buffer_length) < 2 ^ 53)%Z) by lia.
  destruct (Hinv (fun s c Hc Hb HI =>
                    invoke_means_clipped _ _ s c Hnum Hrl' Hc Hb HI)
                 calls self0) as [_ Hlog].
  - apply Forall_forall. intros c Hin step logs r -> Hr.
    rewrite Forall_forall in Hrewards. apply Hrewards.
    unfold rewards_of. apply list_elem_of_omap.
    exists (step_end step logs). split; [exact Hin | exact Hr].
  - exact Hb0.
  - rewrite (init_fresh _ _ _ _ Hinit). split; constructor.
  - apply Forall_forall. intros sm Hsm. unfold tagged in Hsm.
    apply list_elem_of_In, List.filter_In in Hsm as [Hsm Htag].
    apply String.eqb_eq in Htag.
    rewrite Forall_forall in Hlog.
    exact (Hlog sm (proj2 (list_elem_of_In _ _) Hsm) Htag).
Qed.

End CallbackMeanFacts.

Lemma reference_numerics_ieee754 :
  TensorboardCallback.ieee754 TensorboardCallback.reference_numerics.
Proof.
  split; [| reflexivity].
  intros values _. eexists. split; [| reflexivity].
  apply (reference_sum values 0%Q []). apply TensorboardCallback.sum_empty.
Qed.

Section CallbackMeanExamples.
Import Deque TensorboardCallback.
Local Open Scope string_scope.
Local Open Scope list_scope.
Local Open Scope Q_scope.
Local Existing Instance reference_numerics.

Lemma tensorboard_reward_mean_within_witness :
  let self0 :=
    mk 1 0 [("reward", mk_deque [] 3); ("episode_duration", mk_deque [] 1)] [] in
  let calls :=
    [step_end 0 {["reward" := FlappyBirdProcessor.process_reward 5]};
     step_end 1 {["reward" := FlappyBirdProcessor.process_reward (1 # 10)]};
     step_end 2 {["reward" := FlappyBirdProcessor.process_reward (-7)]}] in
  Forall (fun r => -1 <= r <= 1) (rewards_of calls)
  /\ Forall (fun sm => -1 <= simple_value sm <= 1)
            (tagged "reward-mean" (state_of (run self0 calls)))
  /\ length (tagged "reward-mean" (state_of (run self0 calls))) = 3%nat.
Proof.
  intros self0 calls.
  assert (Hrewards : Forall (fun r => -1 <= r <= 1) (rewards_of calls)).
  { vm_compute. repeat constructor; discriminate. }
  split; [exact Hrewards |]. split; [| reflexivity].
  exact (tensorboard_reward_mean_within 1 3 1 self0 calls
           reference_numerics_ieee754 eq_refl eq_refl Hrewards).
Defined.

End CallbackMeanExamples.

(** ** [TensorboardCallback]: the summary log *)

Section CallbackWriterFacts.
Import Deque TensorboardCallback.
Local Open Scope string_scope.
Local Open Scope list_scope.
Context {num : numerics}.

Lemma invoke_writer (rl dl : nat) (s : t) (c : call) :
  buffers rl dl s ->
  exists extra : list summary,
    tensorboard_writer (state_of (invoke s c)) = tensorboard_writer s ++ extra
    /\ Forall (fun sm => summary_step sm = iterations s
                         /\ (tag sm = "reward-mean"
                             \/ (tag sm = "episode_duration-mean"
                                 /\ buffer_items s "episode_duration" <> [])))
              extra
    /\ (is_step_end c = false -> extra = []
        /\ iterations (state_of (invoke s c)) = iterations s
        /\ buffer_items (state_of (invoke s c)) "reward" = buffer_items s "reward")
    /\ (is_step_end c = true ->
        buffer_items (state_of (invoke s c)) "episode_duration"
        = buffer_items s "episode_duration").
Proof.
  intros (dr & dd & Hrd & _).
  assert (Hdd : buffer_items s "episode_duration" = items dd)
    by (unfold buffer_items; rewrite Hrd; reflexivity).
  assert (Hdr : buffer_items s "reward" = items dr)
    by (unfold buffer_items; rewrite Hrd; reflexivity).
  destruct c as [step logs | step logs]; cbn [invoke is_step_end].
  - rewrite (on_step_end_eq s step logs dr dd Hrd).
    destruct (logs !! "reward") as [r |].
    + cbv zeta. destruct (log_interval s =? 0)%Z; cbn [state_of tensorboard_writer].
      * exists []. rewrite app_nil_r. split; [reflexivity |].
        split; [constructor |]. split; [discriminate |].
        intros _. rewrite Hdd. reflexivity.
      * eexists. split; [reflexivity |].
        split; [| split; [discriminate | intros _; rewrite Hdd; reflexivity]].
        destruct (iterations s mod log_interval s =? 0)%Z; [| constructor].
        unfold means_of. apply Forall_app. split.
        -- destruct (0 <? len (append dr r))%nat; [| constructor].
           apply Forall_singleton. cbn. split; [reflexivity | left; reflexivity].
        -- destruct (Nat.ltb_spec 0 (len dd)) as [Hlen | _]; [| constructor].
           apply Forall_singleton. cbn [summary_step tag].
           split; [reflexivity |]. right. split; [reflexivity |].
           rewrite Hdd. unfold len in Hlen. destruct (items dd); [cbn in Hlen; lia |].
           discriminate.
    + exists []. cbn [state_of]. rewrite app_nil_r. split; [reflexivity |].
      split; [constructor |]. split; [discriminate | reflexivity].
  - rewrite (on_episode_end_eq s step logs dr dd Hrd).
    exists []. rewrite app_nil_r.
    destruct (logs !! "nb_episode_steps"); cbn [state_of tensorboard_writer iterations];
      (split; [reflexivity |]); (split; [constructor |]);
      (split; [intros _ | discriminate]);
      (split; [reflexivity |]); (split; [reflexivity |]);
      [rewrite Hdr | reflexivity]; reflexivity.
Qed.

(** X12: the callback writes under two tags only, "reward-mean" and
    "episode_duration-mean", and as long as [on_episode_end] has not been
    called it writes no "episode_duration-mean": the mean of an empty
    buffer is never taken. *)
Theorem tensorboard_tags
        (log_interval reward_buffer_length episode_duration_buffer_length : Z)
        (self0 : t) (calls : list call) :
  __init__ log_interval reward_buffer_length episode_duration_buffer_length
  = Ok self0 ->
  (forall sm : summary,
     sm ∈ tensorboard_writer (state_of (run self0 calls)) ->
     tag sm = "reward-mean" \/ tag sm = "episode_duration-mean")
  /\ (Forall (fun c => is_step_end c = true) calls ->
      forall sm : summary,
        sm ∈ tensorboard_writer (state_of (run self0 calls)) ->
        tag sm = "reward-mean").
Proof.
  intros Hinit.
  destruct (init_buffers _ _ _ _ Hinit) as (Hb0 & _ & _).
  assert (Hfresh : tensorboard_writer self0 = []
                   /\ buffer_items self0 "episode_duration" = []).
  { rewrite (init_fresh _ _ _ _ Hinit). split; reflexivity. }
  destruct Hfresh as [Hw0 Hd0].
  split.
  - pose proof (run_state_invariant
                  (fun s => Forall (fun sm => tag sm = "reward-mean"
                                              \/ tag sm = "episode_duration-mean")
                                   (tensorboard_writer s))
                  (fun _ => True)
                  (Z.to_nat reward_buffer_length)
                  (Z.to_nat episode_duration_buffer_length)) as Hinv.
    cbv beta in Hinv.
    assert (Hall : Forall (fun sm => tag sm = "reward-mean"
                                     \/ tag sm = "episode_duration-mean")
                          (tensorboard_writer (state_of (run self0 calls)))).
    { apply Hinv.
      - intros s c _ Hb Hs.
        destruct (invoke_writer _ _ s c Hb) as (extra & -> & Hextra & _).
        apply Forall_app. split; [exact Hs |].
        eapply Forall_impl; [exact Hextra |].
        intros sm [_ [Ht | [Ht _]]]; [left | right]; exact Ht.
      - apply Forall_forall. intros; exact I.
      - exact Hb0.
      - rewrite Hw0. constructor. }
    intros sm Hsm. rewrite Forall_forall in Hall. exact (Hall sm Hsm).
  - intros Hsteps.
    pose proof (run_state_invariant
                  (fun s => buffer_items s "episode_duration" = []
                            /\ Forall (fun sm => tag sm = "reward-mean")
                                      (tensorboard_writer s))
                  (fun c => is_step_end c = true)
                  (Z.to_nat reward_buffer_length)
                  (Z.to_nat episode_duration_buffer_length)) as Hinv.
    cbv beta in Hinv.
    assert (Hall : buffer_items (state_of (run self0 calls)) "episode_duration" = []
                   /\ Forall (fun sm => tag sm = "reward-mean")
                             (tensorboard_writer (state_of (run self0 calls)))).
    { apply Hinv.
      - intros s c Hc Hb [Hd Hs].
        destruct (invoke_writer _ _ s c Hb) as (extra & -> & Hextra & _ & Hkeep).
        split; [rewrite (Hkeep Hc); exact Hd |].
        apply Forall_app. split; [exact Hs |].
        eapply Forall_impl; [exact Hextra |].
        intros sm [_ [Ht | [_ Hne]]]; [exact Ht | contradiction].
      - exact Hsteps.
      - exact Hb0.
      - split; [exact Hd0 | rewrite Hw0; constructor]. }
    destruct Hall as [_ Hall].
    intros sm Hsm. rewrite Forall_forall in Hall. exact (Hall sm Hsm).
Qed.

(** X13: the summary log only grows: what was written stays written,
    unchanged, whatever is called afterwards (also when a later call
    raises); and [on_episode_end] writes nothing and leaves [iterations]
    and the reward buffer as they are. *)
Theorem tensorboard_log_grows
        (log_interval reward_buffer_length episode_duration_buffer_length : Z)
        (self0 self1 : t) (calls1 calls2 : list call) :
  __init__ log_interval reward_buffer_length episode_duration_buffer_length
  = Ok self0 ->
  run self0 calls1 = Returned self1 ->
  tensorboard_writer self1
    `prefix_of` tensorboard_writer (state_of (run self0 (calls1 ++ calls2)))
  /\ forall (step : Z) (logs : gmap string Q),
       tensorboard_writer (state_of (on_episode_end self1 step logs))
       = tensorboard_writer self1
       /\ iterations (state_of (on_episode_end self1 step logs))
          = iterations self1
       /\ buffer_items (state_of (on_episode_end self1 step logs)) "reward"
          = buffer_items self1 "reward".
Proof.
  intros Hinit Hrun.
  destruct (init_buffers _ _ _ _ Hinit) as (Hb0 & _ & _).
  assert (Hb1 : buffers (Z.to_nat reward_buffer_length)
                        (Z.to_nat episode_duration_buffer_length) self1).
  { pose proof (proj1 (run_outcome _ _ calls1 self0 Hb0)) as Hb.
    rewrite Hrun in Hb. exact Hb. }
  split.
  - rewrite run_app, Hrun.
    apply (run_state_invariant
             (fun s => tensorboard_writer self1 `prefix_of` tensorboard_writer s)
             (fun _ => True)
             (Z.to_nat reward_buffer_length)
             (Z.to_nat episode_duration_buffer_length)).
    + intros s c _ Hb Hs.
      destruct (invoke_writer _ _ s c Hb) as (extra & -> & _).
      etransitivity; [exact Hs | apply prefix_app_r; reflexivity].
    + apply Forall_forall. intros; exact I.
    + exact Hb1.
    + reflexivity.
  - intros step logs.
    destruct (invoke_writer _ _ self1 (episode_end step logs) Hb1)
      as (extra & Hw & _ & Hinert & _).
    cbn [invoke is_step_end] in *.
    destruct (Hinert eq_refl) as (-> & Hit & Hbuf).
    rewrite app_nil_r in Hw. repeat split; assumption.
Qed.

End CallbackWriterFacts.

Section CallbackWriterExamples.
Import Deque TensorboardCallback.
Local Open Scope string_scope.
Local Open Scope list_scope.
Local Existing Instance reference_numerics.

Lemma tensorboard_tags_witness :
  let self0 :=
    mk 1 0 [("reward", mk_deque [] 2); ("episode_duration", mk_deque [] 1)] [] in
  let calls :=
    [step_end 0 {["reward" := 1%Q]}; step_end 1 {["reward" := 3%Q]}] in
  Forall (fun sm => tag sm = "reward-mean")
         (tensorboard_writer (state_of (run self0 calls))).
Proof.
  intros self0 calls. apply Forall_forall.
  apply (proj2 (tensorboard_tags 1 2 1 self0 calls eq_refl)).
  repeat constructor.
Defined.

Lemma tensorboard_log_grows_witness :
  let self0 :=
    mk 1 0 [("reward", mk_deque [] 2); ("episode_duration", mk_deque [] 1)] [] in
  let self1 :=
    mk 1 1 [("reward", mk_deque [1%Q] 2); ("episode_duration", mk_deque [] 1)]
       [mk_summary "reward-mean" 1%Q 0] in
  tensorboard_writer self1
    `prefix_of` tensorboard_writer
                  (state_of (run self0 ([step_end 0 {["reward" := 1%Q]}]
                                        ++ [step_end 1 {["reward" := 3%Q]}]))).
Proof.
  intros self0 self1.
  exact (proj1 (tensorboard_log_grows 1 2 1 self0 self1
                  [step_end 0 {["reward" := 1%Q]}]
                  [step_end 1 {["reward" := 3%Q]}] eq_refl eq_refl)).
Defined.

End CallbackWriterExamples.

(** ** [build_model]: the shapes of the two networks *)

Section ModelFacts.
Import Keras.

Lemma conv_fits (filters kh kw sh sw h w c : nat) (activation : string) :
  (kh <= h)%nat -> (kw <= w)%nat -> (1 <= c)%nat ->
  compute_output_shape (Convolution2D filters (kh, kw) (sh, sw) activation)
                       [h; w; c]
  = Ok [((h - kh) / sh + 1)%nat; ((w - kw) / sw + 1)%nat; filters].
Proof.
  intros Hh Hw Hc. cbn [compute_output_shape].
  destruct (Nat.leb_spec kh h); [| lia].
  destruct (Nat.leb_spec kw w); [| lia].
  destruct (Nat.leb_spec 1 c); [| lia]. reflexivity.
Qed.

Lemma conv_too_small (filters kh kw sh sw h w c : nat) (activation : string) :
  (h < kh \/ w < kw \/ c = 0)%nat ->
  compute_output_shape (Convolution2D filters (kh, kw) (sh, sw) activation)
                       [h; w; c]
  = Raise ValueError.
Proof.
  intros Hsmall. cbn [compute_output_shape].
  destruct (Nat.leb_spec kh h); destruct (Nat.leb_spec kw w);
    destruct (Nat.leb_spec 1 c); try reflexivity; lia.
Qed.

(** The length a "valid" convolution leaves, bounded from both sides. *)
Lemma conv_length_ge (n k s q : nat) :
  s <> 0%nat -> (k + s * q <= n)%nat -> (q + 1 <= (n - k) / s + 1)%nat.
Proof.
  intros Hs Hle.
  assert (q <= (n - k) / s)%nat by (apply Nat.div_le_lower_bound; lia).
  lia.
Qed.

Lemma conv_length_lt (n k s q : nat) :
  s <> 0%nat -> (n < k + s * q)%nat -> (k <= n)%nat ->
  ((n - k) / s + 1 < q + 1)%nat.
Proof.
  intros Hs Hlt Hk.
  assert ((n - k) / s < q)%nat by (apply Nat.Div0.div_lt_upper_bound; lia).
  lia.
Qed.

Lemma run_layers_cons (l : layer) (ls : list layer) (s : list nat) (p : Z) :
  run_layers (l :: ls) s p
  = match compute_output_shape l s with
    | Ok s' => run_layers ls s' (p + layer_params l s)%Z
    | Raise e => Raise e
    end.
Proof. reflexivity. Qed.

Lemma flappybird_build_model_fits (window h w actions : nat) :
  (36 <= h)%nat -> (36 <= w)%nat -> (1 <= window)%nat ->
  run_layers
    (layers (flappybird_kerasrl_train.build_model [window; h; w] actions))
    [window; h; w] 0
  = run_layers [Flatten; Dense 512 (Some "relu"%string);
                Dense actions (Some "linear"%string)]
      [((((h - 8) / 4 + 1 - 4) / 2 + 1 - 3) / 1 + 1)%nat;
       ((((w - 8) / 4 + 1 - 4) / 2 + 1 - 3) / 1 + 1)%nat; 64%nat]
      (0 + 0
       + layer_params (Convolution2D 32 (8, 8)%nat (4, 4)%nat "relu")
                      [h; w; window]
       + layer_params (Convolution2D 64 (4, 4)%nat (2, 2)%nat "relu")
                      [((h - 8) / 4 + 1)%nat; ((w - 8) / 4 + 1)%nat; 32%nat]
       + layer_params (Convolution2D 64 (3, 3)%nat (1, 1)%nat "relu")
                      [(((h - 8) / 4 + 1 - 4) / 2 + 1)%nat;
                       (((w - 8) / 4 + 1 - 4) / 2 + 1)%nat; 64%nat])%Z.
Proof.
  intros Hh Hw Hwindow.
  unfold flappybird_kerasrl_train.build_model. cbn [layers].
  rewrite run_layers_cons.
  change (compute_output_shape (Permute [2; 3; 1]%nat) [window; h; w])
    with (Ok (A := list nat) [h; w; window]).
  cbv iota. rewrite run_layers_cons.
  set (h1 := ((h - 8) / 4 + 1)%nat). set (w1 := ((w - 8) / 4 + 1)%nat).
  set (h2 := ((h1 - 4) / 2 + 1)%nat). set (w2 := ((w1 - 4) / 2 + 1)%nat).
  assert (Hh1 : (7 + 1 <= h1)%nat) by (apply conv_length_ge; lia).
  assert (Hw1 : (7 + 1 <= w1)%nat) by (apply conv_length_ge; lia).
  assert (Hh2 : (2 + 1 <= h2)%nat) by (apply conv_length_ge; lia).
  assert (Hw2 : (2 + 1 <= w2)%nat) by (apply conv_length_ge; lia).
  rewrite conv_fits by lia. fold h1 w1. rewrite run_layers_cons.
  rewrite conv_fits by lia. fold h2 w2. rewrite run_layers_cons.
  rewrite conv_fits by lia.
  reflexivity.
Qed.

(** X14: [build_model] of the FlappyBird script fits at least one frame
    of at least 36 x 36 pixels and nothing less: for an input of [window]
    frames of [h] rows and [w] columns the three convolutions leave a valid
    shape exactly when [h >= 36], [w >= 36] and [window >= 1]; the model
    then has one output per action, and otherwise building it is a
    [ValueError]. *)
Theorem flappybird_build_model_shape (window h w actions : nat) :
  ((36 <= h)%nat /\ (36 <= w)%nat /\ (1 <= window)%nat ->
   output_shape (flappybird_kerasrl_train.build_model [window; h; w] actions)
   = Ok [actions])
  /\ ((h < 36)%nat \/ (w < 36)%nat \/ window = 0%nat ->
      output_shape (flappybird_kerasrl_train.build_model [window; h; w] actions)
      = Raise ValueError).
Proof.
  split.
  - intros (Hh & Hw & Hwindow). unfold output_shape.
    change (input_shape
              (flappybird_kerasrl_train.build_model [window; h; w] actions))
      with [window; h; w].
    rewrite flappybird_build_model_fits by assumption. reflexivity.
  - unfold output_shape, flappybird_kerasrl_train.build_model.
    cbn [layers input_shape].
    rewrite run_layers_cons.
    change (compute_output_shape (Permute [2; 3; 1]%nat) [window; h; w])
      with (Ok (A := list nat) [h; w; window]).
    cbv iota. rewrite run_layers_cons.
    set (h1 := ((h - 8) / 4 + 1)%nat). set (w1 := ((w - 8) / 4 + 1)%nat).
    set (h2 := ((h1 - 4) / 2 + 1)%nat). set (w2 := ((w1 - 4) / 2 + 1)%nat).
    intros Hsmall.
    destruct (Nat.lt_ge_cases h 8) as [Hh8 | Hh8];
      [rewrite conv_too_small by lia; reflexivity |].
    destruct (Nat.lt_ge_cases w 8) as [Hw8 | Hw8];
      [rewrite conv_too_small by lia; reflexivity |].
    destruct (Nat.eq_dec window 0) as [Hw0 | Hw0];
      [rewrite conv_too_small by lia; reflexivity |].
    assert (Hsmall' : (h < 36 \/ w < 36)%nat) by lia.
    clear Hsmall. rename Hsmall' into Hsmall.
    rewrite conv_fits by lia. fold h1 w1. rewrite run_layers_cons.
    destruct (Nat.lt_ge_cases h1 4) as [Hh4 | Hh4];
      [rewrite conv_too_small by lia; reflexivity |].
    destruct (Nat.lt_ge_cases w1 4) as [Hw4 | Hw4];
      [rewrite conv_too_small by lia; reflexivity |].
    rewrite conv_fits by lia. fold h2 w2. rewrite run_layers_cons.
    assert (Hshort : (h2 < 3 \/ w2 < 3 \/ 64 = 0)%nat).
    { destruct Hsmall as [Hs | Hs]; [left | right; left].
      - assert (h1 < 7 + 1)%nat by (apply conv_length_lt; lia).
        apply (conv_length_lt h1 4 2 2); lia.
      - assert (w1 < 7 + 1)%nat by (apply conv_length_lt; lia).
        apply (conv_length_lt w1 4 2 2); lia. }
    rewrite conv_too_small by exact Hshort.
    reflexivity.
Qed.

Lemma flappybird_build_model_shape_witness :
  output_shape (flappybird_kerasrl_train.build_model [4; 36; 84]%nat 2) = Ok [2%nat]
  /\ output_shape (flappybird_kerasrl_train.build_model [4; 35; 84]%nat 2)
     = Raise ValueError
  /\ output_shape (flappybird_kerasrl_train.build_model [0; 84; 84]%nat 2)
     = Raise ValueError.
Proof.
  split; [| split].
  - apply (proj1 (flappybird_build_model_shape 4 36 84 2)). repeat split; lia.
  - apply (proj2 (flappybird_build_model_shape 4 35 84 2)). left. lia.
  - apply (proj2 (flappybird_build_model_shape 0 84 84 2)). right. right.
    reflexivity.
Defined.

(** X15: the network [main] builds for FlappyBird takes what the frame
    processor delivers: its input is [WINDOW_LENGTH] frames of the shape
    [process_observation] returns; it has one output per action and
    1684128 + 513 * [nb_actions] trainable parameters. *)
Theorem flappybird_main_model (nb_actions : nat) :
  output_shape (flappybird_kerasrl_train.main_model nb_actions) = Ok [nb_actions]
  /\ count_params (flappybird_kerasrl_train.main_model nb_actions)
     = Ok (1684128 + 513 * Z.of_nat nb_actions)%Z
  /\ forall (pil : PIL.backend) (observation out : ndarray byte),
       FlappyBirdProcessor.process_observation pil observation = Ok out ->
       input_shape (flappybird_kerasrl_train.main_model nb_actions)
       = WINDOW_LENGTH :: shape out.
Proof.
  assert (Hrun : run_layers
                   (layers (flappybird_kerasrl_train.main_model nb_actions))
                   (input_shape (flappybird_kerasrl_train.main_model nb_actions)) 0
                 = Ok ([nb_actions], (1684128 + 513 * Z.of_nat nb_actions)%Z)).
  { unfold flappybird_kerasrl_train.main_model.
    cbn [fst snd INPUT_SHAPE WINDOW_LENGTH].
    change (input_shape (flappybird_kerasrl_train.build_model
                           [4; 84; 84]%nat nb_actions))
      with [4; 84; 84]%nat.
    rewrite flappybird_build_model_fits by (repeat constructor).
    cbn -[Z.mul Z.add Z.of_nat]. unfold WINDOW_LENGTH.
    f_equal; f_equal; lia. }
  split; [| split].
  - unfold output_shape. rewrite Hrun. reflexivity.
  - unfold count_params. rewrite Hrun. reflexivity.
  - intros pil observation out Hout.
    assert (Himg : exists img, PIL.fromarray pil observation = Ok img).
    { unfold FlappyBirdProcessor.process_observation in Hout.
      destruct (PIL.fromarray pil observation) as [img | e]; [eexists; reflexivity |].
      discriminate Hout. }
    destruct Himg as [img Himg].
    destruct (process_observation_of_image pil observation img Himg)
      as (out' & Hout' & Hshape & _).
    rewrite Hout in Hout'. injection Hout' as <-. rewrite Hshape. reflexivity.
Qed.

Lemma flappybird_main_model_witness :
  exists out : ndarray byte,
    FlappyBirdProcessor.process_observation PIL.reference_backend
      (mk_ndarray [2; 3; 3]%nat (repeat x80 18)) = Ok out
    /\ input_shape (flappybird_kerasrl_train.main_model 2)
       = WINDOW_LENGTH :: shape out.
Proof.
  destruct (process_observation_of_image PIL.reference_backend
              (mk_ndarray [2; 3; 3]%nat (repeat x80 18))
              (PIL.mk_image PIL.RGB (3, 2)%nat
                 (fun x y => take 3 (drop ((y * 3 + x) * 3) (repeat x80 18))))
              eq_refl) as (out & Hout & _).
  exists out. split; [exact Hout |].
  exact (proj2 (proj2 (flappybird_main_model 2))
           PIL.reference_backend _ out Hout).
Defined.


End ModelFacts.

(** ** [TensorboardCallback]: the logged reward means *)

Section CallbackValueFacts.
Import Deque TensorboardCallback.
Local Open Scope string_scope.
Local Open Scope list_scope.
Context {num : numerics}.

Lemma rewards_of_app (calls1 calls2 : list call) :
  rewards_of (calls1 ++ calls2) = rewards_of calls1 ++ rewards_of calls2.
Proof. unfold rewards_of. apply omap_app. Qed.

Lemma logging_steps_range (li : Z) (n : nat) (i : Z) :
  In i (logging_steps li n) -> (0 <= i < Z.of_nat n)%Z.
Proof.
  unfold logging_steps. intros Hin.
  apply List.filter_In in Hin as [Hin _].
  apply List.in_map_iff in Hin as (k & <- & Hk).
  apply List.in_seq in Hk. lia.
Qed.

Lemma run_reward_means (rl dl : nat) (li : Z) (self0 : t) (calls : list call) :
  (0 < rl)%nat ->
  buffers rl dl self0 ->
  log_interval self0 = li ->
  iterations self0 = 0%Z ->
  tensorboard_writer self0 = [] ->
  buffer_items self0 "reward" = [] ->
  forall self : t,
    run self0 calls = Returned self ->
    iterations self = Z.of_nat (length (rewards_of calls))
    /\ tagged "reward-mean" self
       = map (reward_mean_at rl (rewards_of calls))
             (logging_steps li (length (rewards_of calls))).
Proof.
  intros Hrl Hb0 Hli0 Hit0 Hw0 Hr0.
  induction calls as [| c calls IH] using rev_ind; intros self Hrun.
  - cbn in Hrun. injection Hrun as <-. unfold tagged. rewrite Hw0, Hit0.
    split; reflexivity.
  - rewrite run_app in Hrun.
    destruct (run self0 calls) as [s | e s] eqn:Hs; [| discriminate].
    destruct (IH s eq_refl) as [Hit Htag].
    assert (Hb : buffers rl dl s).
    { pose proof (proj1 (run_outcome rl dl calls self0 Hb0)) as Hb.
      rewrite Hs in Hb. exact Hb. }
    assert (Hlis : log_interval s = li).
    { pose proof (proj1 (proj2 (run_outcome rl dl calls self0 Hb0))) as H.
      rewrite Hs in H. cbn [state_of] in H. congruence. }
    destruct (run_windows rl dl calls self0 s Hb0 Hs) as [Hwin _].
    rewrite Hr0 in Hwin. cbn [app] in Hwin.
    destruct Hb as (dr & dd & Hrd & Hmr & _ & Hlr & _).
    assert (Hdr : items dr = window rl (rewards_of calls)).
    { unfold buffer_items in Hwin. rewrite Hrd in Hwin. exact Hwin. }
    cbn [run] in Hrun. rewrite rewards_of_app.
    set (rs := rewards_of calls) in *.
    destruct c as [step logs | step logs]; cbn [invoke] in Hrun.
    + rewrite (on_step_end_eq s step logs dr dd Hrd) in Hrun.
      destruct (logs !! "reward") as [r |] eqn:Hr; [| discriminate].
      cbv zeta in Hrun.
      destruct (log_interval s =? 0)%Z; [discriminate |].
      injection Hrun as <-.
      assert (Hone : rewards_of [step_end step logs] = [r]).
      { unfold rewards_of. cbn. rewrite Hr. reflexivity. }
      rewrite Hone, length_app. cbn [length iterations].
      split; [lia |].
      unfold tagged in *. cbn [tensorboard_writer].
      rewrite List.filter_app, Htag.
      replace (length rs + 1)%nat with (S (length rs)) by lia.
      rewrite logging_steps_S, map_app. f_equal.
      * apply List.map_ext_in. intros i Hi.
        apply logging_steps_range in Hi.
        unfold reward_mean_at. f_equal. f_equal. f_equal.
        rewrite take_app_le by lia. reflexivity.
      * rewrite Hit, Hlis.
        destruct (Z.of_nat (length rs) mod li =? 0)%Z; [| reflexivity].
        rewrite tagged_reward_means_of
          by (apply deque_append_nonempty; lia).
        cbn [map]. unfold reward_mean_at. f_equal. f_equal. f_equal.
        rewrite Nat2Z.id.
        rewrite take_ge by (rewrite length_app; cbn; lia).
        rewrite <- window_app. fold rs. rewrite <- Hdr.
        rewrite <- (deque_append_window rl (items dr) r) by exact Hlr.
        unfold append. cbn [items maxlen]. rewrite Hmr. reflexivity.
    + rewrite (on_episode_end_eq s step logs dr dd Hrd) in Hrun.
      destruct (logs !! "nb_episode_steps") as [n |] eqn:Hn; [| discriminate].
      injection Hrun as <-.
      assert (Hone : rewards_of [episode_end step logs] = []) by reflexivity.
      rewrite Hone, app_nil_r. cbn [iterations].
      split; [exact Hit |].
      unfold tagged in *. cbn [tensorboard_writer]. exact Htag.
Qed.

(** X17: every logged "reward-mean" is taken over the running window it
    is meant for: with a reward buffer of length [N >= 1], the summary
    written by the [on_step_end] call number [i] (counted from 0,
    [i % log_interval == 0]) carries step [i] and, as a 32-bit float, what
    [np.mean] makes of exactly the last [min (i + 1) N] rewards handed over
    up to and including that call, oldest first; this for every way
    [np.mean] and the conversion round. *)
Theorem tensorboard_reward_means
        (log_interval reward_buffer_length episode_duration_buffer_length : Z)
        (self0 self : t) (calls : list call) :
  __init__ log_interval reward_buffer_length episode_duration_buffer_length
  = Ok self0 ->
  (0 < reward_buffer_length)%Z ->
  run self0 calls = Returned self ->
  tagged "reward-mean" self
  = map (reward_mean_at (Z.to_nat reward_buffer_length) (rewards_of calls))
        (logging_steps log_interval (length (rewards_of calls))).
Proof.
  intros Hinit Hrl Hrun.
  destruct (init_buffers _ _ _ _ Hinit) as (Hb0 & Hit0 & Hli0).
  assert (Hfresh : tensorboard_writer self0 = []
                   /\ buffer_items self0 "reward" = []).
  { rewrite (init_fresh _ _ _ _ Hinit). split; reflexivity. }
  destruct Hfresh as [Hw0 Hr0].
  assert (Hrl' : (0 < Z.to_nat reward_buffer_length)%nat) by lia.
  exact (proj2 (run_reward_means _ _ log_interval self0 calls
                  Hrl' Hb0 Hli0 Hit0 Hw0 Hr0 self Hrun)).
Qed.

End CallbackValueFacts.

Section CallbackValueExamples.
Import Deque TensorboardCallback.
Local Open Scope string_scope.
Local Open Scope list_scope.
Local Existing Instance reference_numerics.

(** With the reference numerics the third mean, of 1, 0 and 0, is the
    binary32 number next to 1/3. *)
Lemma tensorboard_reward_means_witness :
  let self0 :=
    mk 1 0 [("reward", mk_deque [] 3); ("episode_duration", mk_deque [] 1)] [] in
  let calls :=
    [step_end 0 {["reward" := 1%Q]}; step_end 1 {["reward" := 0%Q]};
     episode_end 1 {["nb_episode_steps" := 2%Q]};
     step_end 2 {["reward" := 0%Q]}] in
  exists self : t,
    run self0 calls = Returned self
    /\ tagged "reward-mean" self
       = [mk_summary "reward-mean" 1%Q 0;
          mk_summary "reward-mean" (1 # 2)%Q 1;
          mk_summary "reward-mean" (11184811 # 33554432)%Q 2].
Proof.
  intros self0 calls.
  destruct (run self0 calls) as [self | e self] eqn:Hrun;
    [| vm_compute in Hrun; discriminate Hrun].
  exists self. split; [reflexivity |].
  exact (tensorboard_reward_means 1 3 1 self0 self calls eq_refl eq_refl Hrun).
Defined.

End CallbackValueExamples.
